(** * AI Learning Roadmap Generator: the layout core of [app.py]

    A shallow embedding of [app.py] and of the parts of the Python
    library it calls ([re.search], [int], [str.split], [str.strip],
    [textwrap.wrap]), with the properties of the roadmap layout proved
    about it.

    Conventions of the embedding.
    - A Python [str] is a list of characters, and a character is a
      Stdlib [ascii] read as the code point of the same number (0 to
      255).  The character classes of [re] and of [str.isspace] are
      the Unicode ones restricted to these code points.
    - A Python [int] is a [Z].
    - A raised exception is the [Raise] case of [result].
    - Python floats are kept behind the interface [PyFloat]; the
      layout does not depend on them.  The real numbers stand for
      them only in the statements about the arrows of a roadmap,
      which go straight down at x = 500. *)

From Stdlib Require Import ZArith List Ascii String Lia Reals Lra.
From stdpp Require Import gmap strings list pretty.

#[local] Open Scope Z_scope.

(** ** Python values *)

Abbreviation str := (list ascii).

(** A string literal of the source. *)
Definition py (s : string) : str := list_ascii_of_string s.

Definition code (c : ascii) : nat := nat_of_ascii c.

Definition chr_in (lo hi : nat) (c : ascii) : bool :=
  (Nat.leb lo (code c) && Nat.leb (code c) hi)%bool.

Definition chr_is (n : nat) (c : ascii) : bool := Nat.eqb (code c) n.

(** [len(x)] *)
Definition len {A} (l : list A) : Z := Z.of_nat (length l).

(** [l[:n]], for any integer [n]. *)
Definition slice_to {A} (l : list A) (n : Z) : list A :=
  if 0 <=? n then take (Z.to_nat n) l
  else take (length l - Z.to_nat (- n)) l.

(** [l[n:]], for any integer [n]. *)
Definition slice_from {A} (l : list A) (n : Z) : list A :=
  if 0 <=? n then drop (Z.to_nat n) l
  else drop (length l - Z.to_nat (- n)) l.

Fixpoint take_while {A} (p : A -> bool) (l : list A) : list A :=
  match l with
  | [] => []
  | x :: l' => if p x then x :: take_while p l' else []
  end.

Fixpoint drop_while {A} (p : A -> bool) (l : list A) : list A :=
  match l with
  | [] => []
  | x :: l' => if p x then drop_while p l' else l
  end.

(** ** Exceptions

    The exceptions of Python that the code can meet.  [LoopBudget] is
    none of them: it marks a loop of the embedding that has used up
    the passes it was given, and [wrap_loop_budget] shows that the one
    loop with a budget never gets there. *)

Inductive exn : Type :=
| KeyError (key : str)
| ValueError (msg : string)
| IndexError
| LoopBudget.

Inductive result (A : Type) : Type :=
| Ok (a : A)
| Raise (e : exn).
Arguments Ok {A} a.
Arguments Raise {A} e.

#[global] Instance result_ret : MRet result := fun _ a => Ok a.
#[global] Instance result_bind : MBind result := fun _ _ f m =>
  match m with
  | Ok a => f a
  | Raise e => Raise e
  end.

(** [d[k]] on a dict with string keys. *)
Definition getitem {V} (d : gmap str V) (k : str) : result V :=
  match d !! k with
  | Some v => Ok v
  | None => Raise (KeyError k)
  end.

(** ** Characters

    [str.isspace] below code point 256: tab to carriage return, the
    four separators 0x1c to 0x1f, space, NEL and the no-break space. *)
Definition isspace (c : ascii) : bool :=
  (chr_in 9 13 c || chr_in 28 32 c || chr_is 133 c || chr_is 160 c)%bool.

(** [\d] of [re] on a [str] pattern: the decimal digits; below code
    point 256 these are 0 to 9 only. *)
Definition re_digit (c : ascii) : bool := chr_in 48 57 c.

(** [\w] of [re] on a [str] pattern: alphanumeric or underscore.  In
    Latin-1 the alphanumerics beyond ASCII are the two ordinal
    indicators, the micro sign, the superscript digits, the three
    vulgar fractions and the accented letters. *)
Definition re_word (c : ascii) : bool :=
  (chr_in 48 57 c || chr_in 65 90 c || chr_in 97 122 c || chr_is 95 c
   || chr_is 170 c || chr_in 178 179 c || chr_is 181 c || chr_in 185 186 c
   || chr_in 188 190 c || chr_in 192 214 c || chr_in 216 246 c
   || chr_in 248 255 c)%bool.

(** ** CONFIG *)

(** A theme is a dict with the four keys ["bg"], ["box"], ["line"]
    and ["text"]; [theme_bg t] is [t["bg"]], and so on. *)
Record Theme : Type := mkTheme {
  theme_bg : string;
  theme_box : string;
  theme_line : string;
  theme_text : string
}.

Definition THEMES : gmap str Theme :=
  <[py "Purple" := mkTheme "white" "#E1BEE7" "#6A1B9A" "black"]>
  (<[py "Blue" := mkTheme "white" "#BBDEFB" "#1E88E5" "black"]>
  (<[py "Dark" := mkTheme "#1E1E1E" "#2D2D2D" "#B0B0B0" "white"]> ∅)).

Definition LEVEL_MAX_STEPS : gmap str Z :=
  <[py "Beginner" := 6]>
  (<[py "Intermediate" := 10]>
  (<[py "Advanced" := 14]> ∅)).

(** ** UTILS *)

(** [re.search(r"\d+", s)] followed by [.group()]: the leftmost
    digit starts the match and the greedy [+] takes the whole run. *)
Fixpoint re_search_digits (s : str) : option str :=
  match s with
  | [] => None
  | c :: s' =>
      if re_digit c then Some (c :: take_while re_digit s')
      else re_search_digits s'
  end.

Definition digit_value (c : ascii) : Z := Z.of_nat (code c) - 48.

(** [sys.get_int_max_str_digits()]: the interpreter starts with 4300
    and the program does not change it. *)
Definition int_max_str_digits : Z := 4300.

(** The exception of [int] for a literal of too many digits. *)
Definition too_many_digits (digits : Z) : exn :=
  ValueError
    ("Exceeds the limit (4300 digits) for integer string conversion: "
     +:+ "value has " +:+ pretty digits
     +:+ " digits; use sys.set_int_max_str_digits() to increase the limit").

(** [int(s)] for a string of decimal digits.  The integers are
    unbounded, but the conversion refuses a literal of more digits
    than [int_max_str_digits], leading zeros counted.  The other
    literals that [int] accepts (sign, surrounding blanks,
    underscores) do not occur in this program and are reported as
    the [ValueError] of a malformed literal, its message cut
    short. *)
Definition py_int (s : str) : result Z :=
  match s with
  | [] => Raise (ValueError "invalid literal for int()")
  | _ =>
      if forallb re_digit s then
        if int_max_str_digits <? len s
        then Raise (too_many_digits (len s))
        else Ok (fold_left (fun acc c => 10 * acc + digit_value c) s 0)
      else Raise (ValueError "invalid literal for int()")
  end.

Definition parse_months (duration : str) : result Z :=
  match re_search_digits duration with
  | Some m => py_int m
  | None => Ok 3
  end.

Definition steps_from_months (months : Z) : Z := Z.max 3 (months * 2).

Definition compute_steps (months : Z) (level : str) : result Z :=
  cap ← getitem LEVEL_MAX_STEPS level;
  mret (Z.min (steps_from_months months) cap).

Definition STYLES : list str :=
  [ py "hands-on focused"; py "project-driven"; py "theory-first";
    py "tool-oriented"; py "problem-solving based";
    py "real-world use cases" ].

(** [random.choice(seq)] is [seq[i]] for the index [i] the generator
    draws below [len(seq)]; [draw] is that generator. *)
Definition random_choice {A} (draw : nat -> nat) (l : list A) : result A :=
  match l !! (draw (length l)) with
  | Some x => Ok x
  | None => Raise IndexError
  end.

Definition random_style (draw : nat -> nat) : result str :=
  random_choice draw STYLES.

(** ** Strings *)

Definition nl : ascii := ascii_of_nat 10.
Definition space : ascii := ascii_of_nat 32.

(** Truth value of a sequence: non-empty. *)
Definition truthy {A} (l : list A) : bool :=
  match l with
  | [] => false
  | _ :: _ => true
  end.

(** [s.split(sep)] for a separator of one character. *)
Fixpoint str_split (sep : ascii) (s : str) : list str :=
  match s with
  | [] => [[]]
  | c :: s' =>
      if Ascii.eqb c sep then [] :: str_split sep s'
      else match str_split sep s' with
           | [] => [[c]]
           | piece :: pieces => (c :: piece) :: pieces
           end
  end.

(** [s.strip()] *)
Definition str_strip (s : str) : str :=
  rev (drop_while isspace (rev (drop_while isspace s))).

(** [sep.join(pieces)] *)
Fixpoint str_join (sep : str) (pieces : list str) : str :=
  match pieces with
  | [] => []
  | [p] => p
  | p :: ps => p ++ sep ++ str_join sep ps
  end.

(** [str(n)] for an integer. *)
Definition str_of_int (n : Z) : str := py (pretty n).

(** ** AI *)

Section AI.
(** The generator behind [random], and the chat service: the text
    of the first choice of the completion for a prompt, or the
    exception the call ends with. *)
Variable draw : nat -> nat.
Variable chat : str -> result str.

Definition prompt_of (domain level : str) (months : Z) (style : str)
    (steps_count : Z) : str :=
  str_join [nl]
    [ [];
      py "You are an expert curriculum designer.";
      [];
      py "Create a RANDOM learning roadmap.";
      py "Domain: " ++ domain;
      py "Level: " ++ level;
      py "Duration: " ++ str_of_int months ++ py " months";
      [];
      py "Style: " ++ style;
      [];
      py "Rules:";
      py "- Steps must vary on every generation";
      py "- No generic repeated templates";
      py "- Each step is a clear learning milestone";
      py "- Return EXACTLY " ++ str_of_int steps_count ++ py " steps";
      py "- One step per line";
      py "- No numbering";
      [] ].

Definition generate_roadmap (domain level duration : str)
    : result (list str) :=
  months ← parse_months duration;
  steps_count ← compute_steps months level;
  style ← random_style draw;
  content ← chat (prompt_of domain level months style steps_count);
  mret (slice_to
          (map str_strip
             (List.filter (fun s => truthy (str_strip s))
                (str_split nl content)))
          steps_count).
End AI.

(** ** textwrap

    [textwrap.wrap(text, width)] with every other option of
    [TextWrapper] at its default: tabs expanded to columns of 8,
    whitespace replaced by spaces, long words broken, hyphenated
    words breakable, blank chunks dropped at the ends of a line, both
    indents empty, no limit on the number of lines. *)
Module textwrap.

(** The six characters of [_whitespace]. *)
Definition ws (c : ascii) : bool := (chr_in 9 13 c || chr_is 32 c)%bool.

Definition dash (c : ascii) : bool := chr_is 45 c.

(** [word_punct]: a word character, or an exclamation mark, a
    double or single quote, an ampersand, a full stop, a comma or a
    question mark. *)
Definition word_punct (c : ascii) : bool :=
  (re_word c || chr_in 33 34 c || chr_in 38 39 c || chr_is 44 c
   || chr_is 46 c || chr_is 63 c)%bool.

(** [letter]: a word character that is no digit. *)
Definition letter (c : ascii) : bool := (re_word c && negb (re_digit c))%bool.

(** [text.expandtabs(tabsize)], from column [col]. *)
Fixpoint expandtabs (tabsize col : nat) (s : str) : str :=
  match s with
  | [] => []
  | c :: s' =>
      if chr_is 9 c then
        if Nat.ltb 0 tabsize then
          let incr := (tabsize - col mod tabsize)%nat in
          repeat space incr ++ expandtabs tabsize (col + incr) s'
        else expandtabs tabsize col s'
      else if (chr_is 10 c || chr_is 13 c)%bool then
        c :: expandtabs tabsize 0 s'
      else c :: expandtabs tabsize (S col) s'
  end.

(** [text.translate(unicode_whitespace_trans)] *)
Definition translate_whitespace (s : str) : str :=
  map (fun c => if ws c then space else c) s.

Definition _munge_whitespace (text : str) : str :=
  translate_whitespace (expandtabs 8 0 text).

(** *** [wordsep_re]

    The lookarounds of the pattern.  [behind] is the text before
    the current position, nearest character first. *)

Definition head_is {A} (p : A -> bool) (s : list A) : bool :=
  match s with
  | c :: _ => p c
  | [] => false
  end.

(** [(?=-{2,}\w)] and, at a dash, the match of [-{2,} (?=\w)]: two
    dashes or more, the whole run followed by a word character. *)
Definition em_dash_ahead (s : str) : bool :=
  match s with
  | d1 :: d2 :: s' =>
      (dash d1 && dash d2 && head_is re_word (drop_while dash s'))%bool
  | _ => false
  end.

(** [(?<=letter{2}-) | (?<=letter-letter-)], read before the dash
    is consumed. *)
Definition hyphen_behind (behind : str) : bool :=
  match behind with
  | b1 :: b2 :: behind' =>
      (letter b1 && (letter b2 || (dash b2 && head_is letter behind')))%bool
  | _ => false
  end.

(** [(?= letter -? letter)] *)
Definition hyphen_ahead (s : str) : bool :=
  match s with
  | a1 :: a2 :: s' =>
      (letter a1 && (letter a2 || (dash a2 && head_is letter s')))%bool
  | _ => false
  end.

(** Which alternative of the pattern the chunk in progress comes
    from. *)
Inductive alt : Type :=
| Between
| Whitespace
| EmDash
| Word.

(** The alternative that matches at a chunk start, where [c] is
    the next character and [s'] the text after it. *)
Definition start_alt (behind : str) (c : ascii) (s' : str) : alt :=
  if ws c then Whitespace
  else if (head_is word_punct behind && em_dash_ahead (c :: s'))%bool
  then EmDash
  else Word.

(** Whether the chunk in progress ends before [c]. *)
Definition ends_before (a : alt) (behind : str) (c : ascii) (s' : str)
    : bool :=
  match a with
  | Between => true
  | Whitespace => negb (ws c)
  | EmDash => negb (dash c)
  | Word => (ws c || (head_is word_punct behind
                      && em_dash_ahead (c :: s')))%bool
  end.

Definition emit (cur : str) (chunks : list str) : list str :=
  match cur with
  | [] => chunks
  | _ => rev cur :: chunks
  end.

(** [wordsep_re.split(text)] without the empty strings: the matches
    of the pattern, which follow one another from the start of the
    text to its end.  [cur] is the chunk in progress, last
    character first. *)
Fixpoint wordsep_split (a : alt) (behind cur : str) (s : str) : list str :=
  match s with
  | [] => emit cur []
  | c :: s' =>
      if ends_before a behind c s' then
        emit cur
          (wordsep_split (start_alt behind c s') (c :: behind) [c] s')
      else
        match a with
        | Word =>
            if (dash c && hyphen_behind behind && hyphen_ahead s')%bool
            then emit (c :: cur)
                   (wordsep_split Between (c :: behind) [] s')
            else wordsep_split a (c :: behind) (c :: cur) s'
        | _ => wordsep_split a (c :: behind) (c :: cur) s'
        end
  end.

Definition _split (text : str) : list str :=
  wordsep_split Between [] [] text.

Definition _split_chunks (text : str) : list str :=
  _split (_munge_whitespace text).

(** *** Filling lines *)

(** [s.rfind(c, 0, stop)] *)
Fixpoint find_last (p : ascii -> bool) (s : str) (i found : Z) : Z :=
  match s with
  | [] => found
  | c :: s' => find_last p s' (i + 1) (if p c then i else found)
  end.

Definition rfind (p : ascii -> bool) (s : str) (stop : Z) : Z :=
  find_last p (slice_to s stop) 0 (-1).

(** [chunk.strip() == ''] *)
Definition blank (chunk : str) : bool := negb (truthy (str_strip chunk)).

(** The stack [reversed_chunks] is a list whose head is the top of
    the stack, that is the next chunk of the text. *)
Definition _handle_long_word (reversed_chunks cur_line : list str)
    (cur_len width : Z) : result (list str * list str) :=
  let space_left := if width <? 1 then 1 else width - cur_len in
  match reversed_chunks with
  | [] => Raise IndexError
  | chunk :: below =>
      let stop :=
        if space_left <? len chunk then
          let hyphen := rfind dash chunk space_left in
          if ((0 <? hyphen)
              && existsb (fun c => negb (dash c)) (slice_to chunk hyphen))%bool
          then hyphen + 1
          else space_left
        else space_left in
      Ok (slice_from chunk stop :: below, cur_line ++ [slice_to chunk stop])
  end.

(** The inner loop: chunks move to the line while they fit. *)
Fixpoint fill_line (width : Z) (chunks cur_line : list str) (cur_len : Z)
    : list str * list str * Z :=
  match chunks with
  | [] => (chunks, cur_line, cur_len)
  | chunk :: below =>
      let l := len chunk in
      if cur_len + l <=? width
      then fill_line width below (cur_line ++ [chunk]) (cur_len + l)
      else (chunks, cur_line, cur_len)
  end.

(** [if cur_line and cur_line[-1].strip() == '': del cur_line[-1]] *)
Definition drop_last_blank (cur_line : list str) : list str :=
  match last cur_line with
  | Some chunk => if blank chunk then removelast cur_line else cur_line
  | None => cur_line
  end.

(** One pass of the outer loop of [_wrap_chunks], on a non-empty
    stack: the stack and the lines after it. *)
Definition wrap_pass (width : Z) (chunks lines : list str)
    : result (list str * list str) :=
  let chunks :=
    match chunks with
    | chunk :: below =>
        if (blank chunk && truthy lines)%bool then below else chunks
    | [] => chunks
    end in
  let '(chunks, cur_line, cur_len) := fill_line width chunks [] 0 in
  '(chunks, cur_line) ←
    (if head_is (fun chunk => width <? len chunk) chunks
     then _handle_long_word chunks cur_line cur_len width
     else Ok (chunks, cur_line));
  let cur_line := drop_last_blank cur_line in
  mret (chunks, if truthy cur_line then lines ++ [concat cur_line] else lines).

(** The outer loop, [while chunks], for at most [budget] passes. *)
Fixpoint wrap_loop (budget : nat) (width : Z) (chunks lines : list str)
    : result (list str) :=
  match chunks with
  | [] => Ok lines
  | _ :: _ =>
      match budget with
      | O => Raise LoopBudget
      | S budget' =>
          '(chunks', lines') ← wrap_pass width chunks lines;
          wrap_loop budget' width chunks' lines'
      end
  end.

(** Every pass removes a chunk or a character from the stack, so
    this many passes are enough ([wrap_loop_budget] below). *)
Definition budget_for (chunks : list str) : nat :=
  (length chunks + length (concat chunks))%nat.

Definition _wrap_chunks (width : Z) (chunks : list str)
    : result (list str) :=
  if width <=? 0
  then Raise (ValueError
                ("invalid width " +:+ pretty width +:+ " (must be > 0)"))
  else wrap_loop (budget_for chunks) width chunks [].

Definition wrap (text : str) (width : Z) : result (list str) :=
  _wrap_chunks width (_split_chunks text).

End textwrap.

(** ** Numbers and the canvas *)

(** The float arithmetic and the functions of [math] that the drawing
    code uses. *)
Class PyFloat (F : Type) : Type := {
  float : Z -> F;
  fadd : F -> F -> F;
  fsub : F -> F -> F;
  fmul : F -> F -> F;
  ffloordiv : F -> F -> F;
  math_atan2 : F -> F -> F;
  math_cos : F -> F;
  math_sin : F -> F
}.

(** A coordinate handed to [ImageDraw] is an [int] or a [float]. *)
Inductive number (F : Type) : Type :=
| int_ (n : Z)
| float_ (x : F).
Arguments int_ {F} n.
Arguments float_ {F} x.

(** What [ImageDraw] was asked to draw, with the arguments of the
    call.  The calls are recorded, not carried out: the pixels that
    Pillow paints for them are outside the embedding. *)
Inductive DrawOp (F : Type) : Type :=
| Line (start stop : Z * Z) (fill : string) (width : Z)
| Polygon (xy : list (number F * number F)) (fill : string)
| RoundedRectangle (xy : Z * Z * Z * Z) (radius : Z)
    (fill outline : string) (width : Z)
| Text (xy : number F * number F) (line : str) (fill : string).
Arguments Line {F} start stop fill width.
Arguments Polygon {F} xy fill.
Arguments RoundedRectangle {F} xy radius fill outline width.
Arguments Text {F} xy line fill.

(** An image: how [Image.new] made it and the calls drawn on it, in
    order. *)
Record Image (F : Type) : Type := mkImage {
  mode : string;
  size : Z * Z;
  color : string;
  ops : list (DrawOp F)
}.
Arguments mkImage {F} mode size color ops.
Arguments mode {F} i.
Arguments size {F} i.
Arguments color {F} i.
Arguments ops {F} i.

(** [for x in l: state = body(state, x)] *)
Fixpoint for_each {A S} (l : list A) (s : S) (body : S -> A -> result S)
    : result S :=
  match l with
  | [] => Ok s
  | x :: l' => s' ← body s x; for_each l' s' body
  end.

(** [range(n)] *)
Definition range (n : Z) : list Z := map Z.of_nat (seq 0 (Z.to_nat n)).

(** [l[i]] *)
Definition index {A} (l : list A) (i : Z) : result A :=
  let i := if i <? 0 then len l + i else i in
  if i <? 0 then Raise IndexError
  else match l !! Z.to_nat i with
       | Some x => Ok x
       | None => Raise IndexError
       end.

Section Drawing.
Context {F : Type} {PF : PyFloat F}.

(** [draw.textlength(line, font=FONT)], a float. *)
Variable textlength : str -> F.

(** [Image.new(mode, size, color)] *)
Definition Image_new (mode : string) (size : Z * Z) (color : string)
    : result (Image F) :=
  if ((fst size <? 0) || (snd size <? 0))%bool
  then Raise (ValueError "Width and height must be >= 0")
  else Ok (mkImage mode size color []).

Definition put (draw : Image F) (op : DrawOp F) : Image F :=
  mkImage (mode draw) (size draw) (color draw) (ops draw ++ [op]).

(** *** DRAWING *)

Definition draw_arrow (draw : Image F) (start stop : Z * Z)
    (color : string) : Image F :=
  let draw := put draw (Line start stop color 3) in
  let '(dx, dy) := (fst stop - fst start, snd stop - snd start) in
  let angle := math_atan2 (float dy) (float dx) in
  let '(hl, hw) := (14, 7) in
  let p1 :=
    (fadd (fsub (float (fst stop)) (fmul (float hl) (math_cos angle)))
          (fmul (float hw) (math_sin angle)),
     fsub (fsub (float (snd stop)) (fmul (float hl) (math_sin angle)))
          (fmul (float hw) (math_cos angle))) in
  let p2 :=
    (fsub (fsub (float (fst stop)) (fmul (float hl) (math_cos angle)))
          (fmul (float hw) (math_sin angle)),
     fadd (fsub (float (snd stop)) (fmul (float hl) (math_sin angle)))
          (fmul (float hw) (math_cos angle))) in
  put draw
    (Polygon [ (int_ (fst stop), int_ (snd stop));
               (float_ (fst p1), float_ (snd p1));
               (float_ (fst p2), float_ (snd p2)) ] color).

(** The loop of [draw_box] over the wrapped lines. *)
Fixpoint draw_lines (draw : Image F) (cx ty : Z) (wrapped : list str)
    (theme : Theme) : Image F :=
  match wrapped with
  | [] => draw
  | line :: wrapped' =>
      let tw := textlength line in
      let draw :=
        put draw
          (Text (float_ (fsub (float cx) (ffloordiv tw (float 2))), int_ ty)
             line (theme_text theme)) in
      draw_lines draw cx (ty + 18) wrapped' theme
  end.

(** [draw.rounded_rectangle(xy, radius, fill, outline, width)]:
    Pillow refuses a rectangle whose second corner lies to the left
    of the first one or above it, and draws nothing then. *)
Definition rounded_rectangle (draw : Image F) (xy : Z * Z * Z * Z)
    (radius : Z) (fill outline : string) (width : Z) : result (Image F) :=
  let '(x0, y0, x1, y1) := xy in
  if x1 <? x0
  then Raise (ValueError "x1 must be greater than or equal to x0")
  else if y1 <? y0
  then Raise (ValueError "y1 must be greater than or equal to y0")
  else Ok (put draw (RoundedRectangle xy radius fill outline width)).

Definition draw_box (draw : Image F) (cx y w : Z) (text : str)
    (theme : Theme) : result (Z * Z * Z * Z * Image F) :=
  wrapped ← textwrap.wrap text 38;
  let h := 34 + len wrapped * 18 in
  let x := cx - w `div` 2 in
  draw ← rounded_rectangle draw (x, y, x + w, y + h) 20
            (theme_box theme) (theme_line theme) 3;
  let ty := y + 12 in
  let draw := draw_lines draw cx ty wrapped theme in
  mret (x, y, x + w, y + h, draw).

(** *** ROADMAP IMAGE *)

(** The files written so far, by path. *)
Definition IO (A : Type) : Type :=
  gmap str (Image F) -> result A * gmap str (Image F).

#[local] Instance IO_ret : MRet IO := fun _ a fs => (Ok a, fs).
#[local] Instance IO_bind : MBind IO := fun _ _ f m fs =>
  match m fs with
  | (Ok a, fs') => f a fs'
  | (Raise e, fs') => (Raise e, fs')
  end.

Definition lift {A} (r : result A) : IO A := fun fs => (r, fs).

(** [img.save(path)] *)
Definition save (img : Image F) (path : str) : IO unit :=
  fun fs => (Ok tt, <[path := img]> fs).

Definition draw_roadmap (steps : list str) (theme_name : str) : IO str :=
  theme ← lift (getitem THEMES theme_name);
  let '(cx, top, gap, bw) := (500, 60, 35, 620) in
  height ← lift (for_each steps (top + 60) (fun height s =>
    wrapped ← textwrap.wrap s 38;
    mret (height + (34 + len wrapped * 18 + gap))));
  img ← lift (Image_new "RGB" (1000, height) (theme_bg theme));
  '(y, boxes, draw) ← lift (for_each steps (top, [], img)
    (fun '(y, boxes, draw) s =>
      '(box, draw) ← draw_box draw cx y bw s theme;
      mret (snd box + gap, boxes ++ [box], draw)));
  draw ← lift (for_each (range (len boxes - 1)) draw (fun draw i =>
    '(l, t, r, b) ← index boxes i;
    '(l', t', r', b') ← index boxes (i + 1);
    let start := ((l + r) `div` 2, b + 6) in
    let stop := ((l' + r') `div` 2, t' - 6) in
    mret (draw_arrow draw start stop (theme_line theme))));
  let path := py "/tmp/roadmap.png" in
  save draw path;;
  mret path.

End Drawing.

(** ** Floats as real numbers

    The idealised floats: every operation is the exact one on the
    real numbers, so neither the rounding of the doubles nor the
    [OverflowError] of an integer too large for a double is
    modelled.  [atan2] is the angle of the point [(x, y)] in the
    interval from [-PI] (excluded) to [PI], and 0 at the origin, as
    [math.atan2] has it.  The statements below use this instance
    only for the arrows of a roadmap, which go straight down from one
    box to the next at x = 500 (their corners are whole numbers, 7 to
    either side and 14 up), and to have a canvas to evaluate
    [draw_roadmap] on; nothing is stated about an arrow in another
    direction. *)
Module RealMath.
#[local] Open Scope R_scope.

Definition atan2 (y x : R) : R :=
  if Rlt_dec 0 x then atan (y / x)
  else if Rlt_dec x 0 then
    if Rle_dec 0 y then atan (y / x) + PI else atan (y / x) - PI
  else if Rlt_dec 0 y then PI / 2
  else if Rlt_dec y 0 then - (PI / 2)
  else 0.

Definition floordiv (x y : R) : R := IZR (Int_part (x / y)).

#[global] Instance real_float : PyFloat R := {|
  float := IZR;
  fadd := Rplus;
  fsub := Rminus;
  fmul := Rmult;
  ffloordiv := floordiv;
  math_atan2 := atan2;
  math_cos := cos;
  math_sin := sin
|}.
End RealMath.

(** ** The vocabulary of the statements *)

(** The lines of a step at the width of the boxes. *)
Definition wrapped_lines (s : str) : list str :=
  match textwrap.wrap s 38 with
  | Ok lines => lines
  | Raise _ => []
  end.

Definition box_height (s : str) : Z := 34 + len (wrapped_lines s) * 18.

(** The sum over the steps of box height plus gap. *)
Definition stack_height (gap : Z) (steps : list str) : Z :=
  fold_right (fun s acc => box_height s + gap + acc) 0 steps.

(** The rectangles of a column of boxes that starts at height [y]. *)
Fixpoint column (x y w gap : Z) (steps : list str) : list (Z * Z * Z * Z) :=
  match steps with
  | [] => []
  | s :: steps' =>
      (x, y, x + w, y + box_height s)
        :: column x (y + box_height s + gap) w gap steps'
  end.

Section Reading.
Context {F : Type}.

(** The rectangles drawn, in the order of the calls. *)
Definition boxes_of (l : list (DrawOp F)) : list (Z * Z * Z * Z) :=
  omap (fun op => match op with
                  | RoundedRectangle xy _ _ _ _ => Some xy
                  | _ => None
                  end) l.

(** The segments drawn, in the order of the calls. *)
Definition segments_of (l : list (DrawOp F))
    : list ((Z * Z) * (Z * Z)) :=
  omap (fun op => match op with
                  | Line start stop _ _ => Some (start, stop)
                  | _ => None
                  end) l.

(** The polygons drawn, in the order of the calls. *)
Definition polygons_of (l : list (DrawOp F))
    : list (list (number F * number F)) :=
  omap (fun op => match op with
                  | Polygon xy _ => Some xy
                  | _ => None
                  end) l.

(** The first corner of each polygon drawn. *)
Definition tips_of (l : list (DrawOp F)) : list (number F * number F) :=
  omap (fun op => match op with
                  | Polygon xy _ => head xy
                  | _ => None
                  end) l.

(** The lines of text drawn right after each rectangle. *)
Fixpoint texts_at (l : list (DrawOp F)) : list str :=
  match l with
  | Text _ line _ :: l' => line :: texts_at l'
  | _ => []
  end.

Fixpoint labels_of (l : list (DrawOp F)) : list (list str) :=
  match l with
  | [] => []
  | RoundedRectangle _ _ _ _ _ :: l' => texts_at l' :: labels_of l'
  | _ :: l' => labels_of l'
  end.
End Reading.

(** A character that [str.strip] keeps. *)
Definition solid (c : ascii) : bool := negb (isspace c).

(** The value of a decimal numeral, most significant digit first. *)
Fixpoint decimal (digits : str) : Z :=
  match digits with
  | [] => 0
  | c :: digits' => digit_value c * 10 ^ len digits' + decimal digits'
  end.

(** What the calls of a roadmap draw, read off the empty canvas. *)
Section Expected.
Context {F : Type} {PF : PyFloat F}.
Variable textlength : str -> F.

Definition blank : Image F := mkImage "" (0, 0) "" [].

Definition arrow_ops (start stop : Z * Z) (color : string)
    : list (DrawOp F) :=
  ops (draw_arrow blank start stop color).

Definition text_ops (cx ty : Z) (wrapped : list str) (theme : Theme)
    : list (DrawOp F) :=
  ops (draw_lines textlength blank cx ty wrapped theme).

Definition box_ops (cx y w : Z) (s : str) (theme : Theme)
    : list (DrawOp F) :=
  let x := cx - w `div` 2 in
  RoundedRectangle (x, y, x + w, y + box_height s) 20
    (theme_box theme) (theme_line theme) 3
  :: text_ops cx (y + 12) (wrapped_lines s) theme.

Fixpoint column_ops (cx y w gap : Z) (steps : list str) (theme : Theme)
    : list (DrawOp F) :=
  match steps with
  | [] => []
  | s :: steps' =>
      box_ops cx y w s theme
      ++ column_ops cx (y + box_height s + gap) w gap steps' theme
  end.

(** The arrow from a box to the next one. *)
Definition link (upper lower : Z * Z * Z * Z) : (Z * Z) * (Z * Z) :=
  let '(l, t, r, b) := upper in
  let '(l', t', r', b') := lower in
  (((l + r) `div` 2, b + 6), ((l' + r') `div` 2, t' - 6)).

Fixpoint links (boxes : list (Z * Z * Z * Z)) : list ((Z * Z) * (Z * Z)) :=
  match boxes with
  | [] => []
  | upper :: boxes' =>
      match boxes' with
      | [] => []
      | lower :: _ => link upper lower :: links boxes'
      end
  end.

Definition link_ops (boxes : list (Z * Z * Z * Z)) (color : string)
    : list (DrawOp F) :=
  flat_map (fun a => arrow_ops (fst a) (snd a) color) (links boxes).

Definition roadmap_image (steps : list str) (theme : Theme) : Image F :=
  mkImage "RGB" (1000, 60 + 60 + stack_height 35 steps) (theme_bg theme)
    (column_ops 500 60 620 35 steps theme
     ++ link_ops (column 190 60 620 35 steps) (theme_line theme)).
End Expected.

(** ** MAIN *)

(** The files of a run: the images and the text files, by path.  The
    code writes one of each, at two different paths. *)
Record Disk (F : Type) : Type := mkDisk {
  images : gmap str (Image F);
  texts : gmap str str
}.
Arguments mkDisk {F} images texts.
Arguments images {F} d.
Arguments texts {F} d.

Section Main.
Context {F : Type} {PF : PyFloat F}.
Variable textlength : str -> F.
Variable draw : nat -> nat.
Variable chat : str -> result str.

(** [open(path, "w")] followed by [f.write(content)]. *)
Definition write_text (path content : str) (disk : Disk F) : Disk F :=
  mkDisk (images disk) (<[path := content]> (texts disk)).

Definition run (domain level duration theme : str) (disk : Disk F)
    : result (str * str * str) * Disk F :=
  match generate_roadmap draw chat domain level duration with
  | Raise e => (Raise e, disk)
  | Ok steps =>
      match draw_roadmap textlength steps theme (images disk) with
      | (Raise e, saved) => (Raise e, mkDisk saved (texts disk))
      | (Ok img_path, saved) =>
          let disk := mkDisk saved (texts disk) in
          let txt_path := py "/tmp/roadmap.txt" in
          let disk := write_text txt_path (str_join [nl] steps) disk in
          (Ok (str_join [nl] steps, img_path, txt_path), disk)
      end
  end.
End Main.

(** The vertical position of each line of text drawn, in the order
    of the calls. *)
Definition text_rows {F} (l : list (DrawOp F)) : list Z :=
  omap (fun op => match op with
                  | Text (_, int_ row) _ _ => Some row
                  | _ => None
                  end) l.

(** The non-blank lines of an answer of the chat service. *)
Definition answer_lines (content : str) : list str :=
  map str_strip
    (List.filter (fun s => truthy (str_strip s)) (str_split nl content)).

(** A chunk as the wrapping loop expects it: not empty, and all
    whitespace or free of it. *)
Definition pure_chunk_prop (chunk : str) : Prop :=
  chunk <> []
  /\ (forallb textwrap.ws chunk = true
      \/ forallb (fun c => negb (textwrap.ws c)) chunk = true).



(** * Properties *)

(** ** Lists, slices and the error monad *)

Lemma len_nonneg {A} (l : list A) : 0 <= len l.
Proof. unfold len. lia. Qed.

Lemma len_app {A} (l k : list A) : len (l ++ k) = len l + len k.
Proof. unfold len. rewrite length_app. lia. Qed.

Lemma len_cons {A} (x : A) (l : list A) : len (x :: l) = 1 + len l.
Proof. unfold len. simpl. lia. Qed.

Lemma len_nil {A} : len (@nil A) = 0.
Proof. reflexivity. Qed.

Lemma slice_to_len {A} (l : list A) (n : Z) :
  0 <= n -> len (slice_to l n) <= n.
Proof.
  intros Hn. unfold slice_to, len.
  destruct (Z.leb_spec 0 n); [|lia].
  rewrite length_take. lia.
Qed.

Lemma slice_to_from {A} (l : list A) (n : Z) :
  slice_to l n ++ slice_from l n = l.
Proof.
  unfold slice_to, slice_from.
  destruct (0 <=? n); apply take_drop.
Qed.

Lemma take_while_forallb {A} (p : A -> bool) (l : list A) :
  forallb p (take_while p l) = true.
Proof.
  induction l as [|x l IH]; simpl; [reflexivity|].
  destruct (p x) eqn:Hx; simpl; [|reflexivity].
  now rewrite Hx.
Qed.

Lemma take_while_app {A} (p : A -> bool) (l k : list A) :
  forallb p l = true ->
  match k with [] => true | x :: _ => negb (p x) end = true ->
  take_while p (l ++ k) = l.
Proof.
  intros Hl Hk. induction l as [|x l IH]; simpl in *.
  - destruct k as [|y k]; simpl; [reflexivity|].
    apply negb_true_iff in Hk. now rewrite Hk.
  - apply andb_true_iff in Hl as [Hx Hl]. rewrite Hx. f_equal. now apply IH.
Qed.

(** ** parse_months *)

Lemma fold_decimal (s : str) (acc : Z) :
  fold_left (fun a c => 10 * a + digit_value c) s acc
  = acc * 10 ^ len s + decimal s.
Proof.
  revert acc. induction s as [|c s IH]; intros acc; simpl.
  - rewrite len_nil. lia.
  - rewrite IH, len_cons.
    rewrite Z.pow_add_r by (pose proof (len_nonneg s); lia).
    lia.
Qed.

Lemma py_int_decimal (s : str) :
  s <> [] -> forallb re_digit s = true -> len s <= int_max_str_digits ->
  py_int s = Ok (decimal s).
Proof.
  intros Hne Hd Hlen. unfold py_int. destruct s as [|c s]; [congruence|].
  rewrite Hd. destruct (Z.ltb_spec int_max_str_digits (len (c :: s))); [lia|].
  rewrite fold_decimal. f_equal.
Qed.

Lemma py_int_too_long (s : str) :
  forallb re_digit s = true -> int_max_str_digits < len s ->
  py_int s = Raise (too_many_digits (len s)).
Proof.
  intros Hd Hlen. unfold py_int. destruct s as [|c s]; [discriminate|].
  rewrite Hd.
  now destruct (Z.ltb_spec int_max_str_digits (len (c :: s))); [|lia].
Qed.

Lemma py_int_ok (s : str) (n : Z) :
  s <> [] -> forallb re_digit s = true -> py_int s = Ok n ->
  n = decimal s /\ len s <= int_max_str_digits.
Proof.
  intros Hne Hd. unfold py_int. destruct s as [|c s]; [congruence|].
  rewrite Hd. destruct (Z.ltb_spec int_max_str_digits (len (c :: s)));
    [discriminate|].
  rewrite fold_decimal. intros [= <-]. split; [|assumption]. reflexivity.
Qed.

Lemma take_while_len {A} (p : A -> bool) (l : list A) :
  len (take_while p l) <= len l.
Proof.
  induction l as [|x l IH]; simpl; [reflexivity|].
  destruct (p x); rewrite ?len_cons, ?len_nil; pose proof (len_nonneg l); lia.
Qed.

Lemma re_search_digits_len (s m : str) :
  re_search_digits s = Some m -> len m <= len s.
Proof.
  induction s as [|c s IH]; simpl; [discriminate|].
  destruct (re_digit c).
  - intros [= <-]. rewrite !len_cons.
    pose proof (take_while_len re_digit s). lia.
  - intros H. specialize (IH H). rewrite len_cons. lia.
Qed.

Lemma re_search_digits_some (s m : str) :
  re_search_digits s = Some m -> m <> [] /\ forallb re_digit m = true.
Proof.
  induction s as [|c s IH]; simpl; [discriminate|].
  destruct (re_digit c) eqn:Hc; [|exact IH].
  intros [= <-]. split; [discriminate|].
  simpl. rewrite Hc. apply take_while_forallb.
Qed.

Lemma re_search_digits_none (s : str) :
  forallb (fun c => negb (re_digit c)) s = true -> re_search_digits s = None.
Proof.
  induction s as [|c s IH]; simpl; [reflexivity|].
  intros [Hc Hs]%andb_true_iff. apply negb_true_iff in Hc.
  rewrite Hc. now apply IH.
Qed.

Lemma re_search_digits_run (pre run post : str) :
  forallb (fun c => negb (re_digit c)) pre = true ->
  run <> [] ->
  forallb re_digit run = true ->
  textwrap.head_is re_digit post = false ->
  re_search_digits (pre ++ run ++ post) = Some run.
Proof.
  intros Hpre Hne Hrun Hpost. induction pre as [|c pre IH]; simpl in *.
  - destruct run as [|d run]; [congruence|]. simpl in *.
    apply andb_true_iff in Hrun as [Hd Hrun]. rewrite Hd.
    rewrite take_while_app; [reflexivity|assumption|].
    destruct post; simpl in *; [reflexivity|now rewrite Hpost].
  - apply andb_true_iff in Hpre as [Hc Hpre]. apply negb_true_iff in Hc.
    rewrite Hc. now apply IH.
Qed.

Lemma parse_months_returns (duration : str) :
  len duration <= int_max_str_digits -> exists n, parse_months duration = Ok n.
Proof.
  intros Hlen. unfold parse_months.
  destruct (re_search_digits duration) as [m|] eqn:Hm; [|now exists 3].
  pose proof (re_search_digits_len _ _ Hm).
  apply re_search_digits_some in Hm as [Hne Hd].
  exists (decimal m). apply py_int_decimal; [assumption..|lia].
Qed.

(** C10, as the code has it.  For every duration string,
    [parse_months] is 3 when the string has no decimal digit, and
    otherwise goes by the first maximal run of digits (the run that
    follows a prefix without digits and is followed by the end of
    the string or by a character that is no digit): it returns the
    decimal value of the run when the run has at most 4300 digits,
    and raises the [ValueError] of [int] when it has more.  So
    [parse_months] raises nothing on a string of at most 4300
    characters. *)
Theorem parse_months_first_digit_run (duration : str) :
  (forallb (fun c => negb (re_digit c)) duration = true ->
   parse_months duration = Ok 3) /\
  (forall pre run post,
     duration = pre ++ run ++ post ->
     forallb (fun c => negb (re_digit c)) pre = true ->
     run <> [] ->
     forallb re_digit run = true ->
     textwrap.head_is re_digit post = false ->
     (len run <= 4300 -> parse_months duration = Ok (decimal run))
     /\ (4300 < len run ->
         parse_months duration = Raise (too_many_digits (len run))))
  /\ (len duration <= 4300 -> exists n, parse_months duration = Ok n).
Proof.
  split; [|split; [|apply parse_months_returns]].
  - intros H. unfold parse_months. now rewrite re_search_digits_none.
  - intros pre run post -> Hpre Hne Hrun Hpost. unfold parse_months.
    rewrite re_search_digits_run by assumption. split; intros Hlen.
    + now apply py_int_decimal.
    + now apply py_int_too_long.
Qed.

(** C10, as stated, fails: a duration of 4301 digits makes
    [parse_months] raise. *)
Lemma parse_months_raises :
  parse_months (repeat "1"%char 4301) = Raise (too_many_digits 4301)
  /\ ~ (exists n, parse_months (repeat "1"%char 4301) = Ok n).
Proof.
  assert (H : parse_months (repeat "1"%char 4301)
              = Raise (too_many_digits 4301))
    by (vm_compute; reflexivity).
  split; [exact H|]. rewrite H. intros [n Hn]. discriminate.
Qed.

Lemma parse_months_first_digit_run_witness :
  parse_months (py "about 12 months, or 6") = Ok 12.
Proof.
  apply (proj1 (proj2 (parse_months_first_digit_run
                         (py "about 12 months, or 6")))
           (py "about ") (py "12") (py " months, or 6")).
  - reflexivity.
  - reflexivity.
  - discriminate.
  - reflexivity.
  - reflexivity.
  - vm_compute. discriminate.
Defined.

Example parse_months_default : parse_months (py "a few weeks") = Ok 3.
Proof. reflexivity. Qed.

Example parse_months_leading_zero : parse_months (py "007 days") = Ok 7.
Proof. reflexivity. Qed.

Example parse_months_at_the_limit :
  parse_months (repeat "0"%char 4299 ++ py "7 days") = Ok 7
  /\ parse_months (py "in " ++ repeat "0"%char 4300 ++ py "7 days")
     = Raise (too_many_digits 4301).
Proof. split; vm_compute; reflexivity. Qed.

(** ** compute_steps and generate_roadmap *)

Lemma LEVEL_MAX_STEPS_cases (level : str) (cap : Z) :
  LEVEL_MAX_STEPS !! level = Some cap <->
  (level = py "Beginner" /\ cap = 6)
  \/ (level = py "Intermediate" /\ cap = 10)
  \/ (level = py "Advanced" /\ cap = 14).
Proof.
  unfold LEVEL_MAX_STEPS. rewrite !lookup_insert, lookup_empty.
  repeat case_decide; subst; split; intros Hx;
    try (injection Hx as <-); try discriminate; try tauto;
    try (destruct Hx as [[Hl Hc]|[[Hl Hc]|[Hl Hc]]]; subst;
         try reflexivity; try discriminate; congruence).
Qed.

Lemma compute_steps_eq (months : Z) (level : str) (cap : Z) :
  LEVEL_MAX_STEPS !! level = Some cap ->
  compute_steps months level = Ok (Z.min (Z.max 3 (2 * months)) cap).
Proof.
  intros H. unfold compute_steps, getitem, steps_from_months. rewrite H.
  simpl. unfold mret, result_ret. do 2 f_equal. lia.
Qed.

Lemma compute_steps_unknown_level (months : Z) (level : str) :
  LEVEL_MAX_STEPS !! level = None ->
  compute_steps months level = Raise (KeyError level).
Proof. intros H. unfold compute_steps, getitem. now rewrite H. Qed.

(** C8.  For a level of the table (Beginner, Intermediate or Advanced,
    with its maximum [cap]), [compute_steps months level] is
    [min (max 3 (2 * months)) cap] for every integer [months].  For
    every duration string, whenever [parse_months] yields the number
    of months (it does on every string of at most 4300 characters),
    [generate_roadmap], when the chat service answers, returns the
    non-blank lines of the answer cut to that count; and whenever
    [generate_roadmap] returns steps at all, [parse_months] has
    yielded a number of months and the steps are no more than the
    count for it. *)
Theorem steps_capped (draw : nat -> nat) (chat : str -> result str)
    (domain level duration : str) (cap : Z) :
  LEVEL_MAX_STEPS !! level = Some cap ->
  (forall months,
     compute_steps months level = Ok (Z.min (Z.max 3 (2 * months)) cap)) /\
  (forall months,
     parse_months duration = Ok months ->
     let steps_count := Z.min (Z.max 3 (2 * months)) cap in
     forall style content,
       random_style draw = Ok style ->
       chat (prompt_of domain level months style steps_count) = Ok content ->
       generate_roadmap draw chat domain level duration
       = Ok (slice_to
               (map str_strip
                  (List.filter (fun s => truthy (str_strip s))
                     (str_split nl content)))
               steps_count)) /\
  (forall steps,
     generate_roadmap draw chat domain level duration = Ok steps ->
     exists months,
       parse_months duration = Ok months /\
       len steps <= Z.min (Z.max 3 (2 * months)) cap) /\
  (len duration <= 4300 -> exists months, parse_months duration = Ok months).
Proof.
  intros Hcap. split; [intros; now apply compute_steps_eq|].
  split; [|split; [|apply parse_months_returns]].
  - intros months Hm steps_count style content Hstyle Hchat.
    unfold generate_roadmap. rewrite Hm. simpl.
    rewrite (compute_steps_eq months level cap Hcap). simpl.
    rewrite Hstyle. simpl. fold steps_count. now rewrite Hchat.
  - intros steps. unfold generate_roadmap.
    destruct (parse_months duration) as [months|]; [|discriminate].
    simpl. rewrite (compute_steps_eq months level cap Hcap). simpl.
    destruct (random_style draw) as [style|]; [|discriminate].
    simpl. destruct (chat _) as [content|]; [|discriminate]. simpl.
    intros [= <-]. exists months. split; [reflexivity|].
    apply slice_to_len. apply LEVEL_MAX_STEPS_cases in Hcap. lia.
Qed.

Lemma steps_capped_witness :
  compute_steps 2 (py "Beginner") = Ok 4 /\
  compute_steps 1 (py "Beginner") = Ok 3 /\
  compute_steps 12 (py "Beginner") = Ok 6 /\
  generate_roadmap (fun _ => O)
    (fun _ => Ok (py "a" ++ nl :: py "b" ++ nl :: py "c" ++ nl :: py "d"
                    ++ nl :: py "e"))
    [] (py "Beginner") (py "2 months")
  = Ok [py "a"; py "b"; py "c"; py "d"].
Proof.
  pose proof (steps_capped (fun _ => O)
                (fun _ => Ok (py "a" ++ nl :: py "b" ++ nl :: py "c" ++ nl
                                :: py "d" ++ nl :: py "e"))
                [] (py "Beginner") (py "2 months") 6 eq_refl) as [H [G _]].
  refine (conj (H 2) (conj (H 1) (conj (H 12) _))).
  exact (G 2 eq_refl _ _ eq_refl eq_refl).
Defined.

(** ** textwrap: every line fits, and the loop ends *)

Section WrapFacts.
Import textwrap.

Lemma find_last_bounds p s i found :
  -1 <= found < i -> -1 <= find_last p s i found < i + len s.
Proof.
  revert i found. induction s as [|c s IH]; intros i found H; simpl.
  - rewrite len_nil. lia.
  - rewrite len_cons.
    specialize (IH (i + 1) (if p c then i else found)).
    destruct (p c); lia.
Qed.

Lemma rfind_bounds p s stop : 0 <= stop -> -1 <= rfind p s stop < stop.
Proof.
  intros H. unfold rfind.
  pose proof (find_last_bounds p (slice_to s stop) 0 (-1)).
  pose proof (slice_to_len s stop). lia.
Qed.

Lemma budget_for_app (l k : list str) :
  budget_for (l ++ k) = (budget_for l + budget_for k)%nat.
Proof. unfold budget_for. rewrite concat_app, !length_app. lia. Qed.

Lemma budget_for_cons (c : str) (l : list str) :
  budget_for (c :: l) = (1 + length c + budget_for l)%nat.
Proof. unfold budget_for. simpl. rewrite length_app. lia. Qed.

Lemma fill_line_spec width chunks cur_line cur_len :
  exists moved rest,
    fill_line width chunks cur_line cur_len
    = (rest, cur_line ++ moved, cur_len + len (concat moved))
    /\ chunks = moved ++ rest
    /\ (cur_len <= width -> cur_len + len (concat moved) <= width)
    /\ (moved = [] ->
        head_is (fun c => cur_len + len c <=? width) rest = false).
Proof.
  revert cur_line cur_len.
  induction chunks as [|c below IH]; intros cur_line cur_len; simpl.
  - exists [], []. cbn [concat].
    rewrite app_nil_r, (@len_nil ascii), Z.add_0_r. auto.
  - destruct (Z.leb_spec (cur_len + len c) width) as [Hfit|Hfull].
    + destruct (IH (cur_line ++ [c]) (cur_len + len c))
        as (moved & rest & Heq & Hsplit & Hle & _).
      exists (c :: moved), rest. simpl.
      rewrite Heq, <- app_assoc, len_app, Z.add_assoc.
      repeat split; try (intros; lia); try discriminate.
      now rewrite Hsplit.
    + exists [], (c :: below). cbn [concat app head_is].
      rewrite app_nil_r, (@len_nil ascii), Z.add_0_r.
      repeat split; auto. intros _. lia.
Qed.

Lemma drop_last_blank_spec (cur_line : list str) :
  exists dropped,
    cur_line = drop_last_blank cur_line ++ dropped
    /\ Forall (fun c => blank c = true) dropped.
Proof.
  unfold drop_last_blank. destruct (last cur_line) as [c|] eqn:Hlast.
  - apply last_Some in Hlast as [l' ->].
    destruct (blank c) eqn:Hc.
    + exists [c]. rewrite removelast_last. split; auto.
    + exists []. rewrite app_nil_r. split; auto.
  - exists []. rewrite app_nil_r. split; auto.
Qed.

Lemma blank_solid (c : str) :
  forallb solid c = true -> blank c = true -> c = [].
Proof.
  unfold blank, str_strip. intros Hs Hb.
  destruct c as [|x c]; [reflexivity|exfalso].
  simpl in Hs. apply andb_true_iff in Hs as [Hx Hs].
  unfold solid in Hx. apply negb_true_iff in Hx.
  simpl in Hb. rewrite Hx in Hb.
  destruct (rev (x :: c)) as [|y r] eqn:Hr.
  { apply (f_equal (@length _)) in Hr. rewrite length_rev in Hr.
    discriminate. }
  assert (Hy : isspace y = false).
  { assert (Hin : In y (x :: c)).
    { apply in_rev. rewrite Hr. now left. }
    destruct Hin as [<-|Hin]; [assumption|].
    rewrite forallb_forall in Hs. specialize (Hs y Hin).
    now apply negb_true_iff in Hs. }
  simpl in Hb. rewrite Hy in Hb.
  destruct (rev (y :: r)) eqn:Hrr; [|discriminate].
  apply (f_equal (@length _)) in Hrr. rewrite length_rev in Hrr.
  discriminate.
Qed.

Lemma concat_blank_solid (l : list str) :
  Forall (fun c => blank c = true) l ->
  forallb solid (concat l) = true -> concat l = [].
Proof.
  induction 1 as [|c l Hc _ IH]; simpl; [reflexivity|].
  rewrite forallb_app. intros [H1 H2]%andb_true_iff.
  rewrite (blank_solid c H1 Hc). now apply IH.
Qed.
End WrapFacts.

Section WrapLoop.
Import textwrap.

Lemma handle_long_word_spec chunk below cur_line cur_len width :
  0 < width -> 0 <= cur_len <= width ->
  exists stop,
    _handle_long_word (chunk :: below) cur_line cur_len width
    = Ok (slice_from chunk stop :: below, cur_line ++ [slice_to chunk stop])
    /\ 0 <= stop <= width - cur_len
    /\ (cur_len = 0 -> 1 <= stop).
Proof.
  intros Hw Hlen. unfold _handle_long_word.
  destruct (Z.ltb_spec width 1) as [?|_]; [lia|].
  pose proof (rfind_bounds dash chunk (width - cur_len)) as Hr.
  destruct (width - cur_len <? len chunk).
  - destruct (Z.ltb_spec 0 (rfind dash chunk (width - cur_len))) as [Hh|Hh];
      simpl.
    + destruct (existsb _ _).
      * eexists. split; [reflexivity|]. lia.
      * eexists. split; [reflexivity|]. lia.
    + eexists. split; [reflexivity|]. lia.
  - eexists. split; [reflexivity|]. lia.
Qed.

Lemma slice_from_length {A} (l : list A) (n : Z) :
  0 <= n -> length (slice_from l n) = (length l - Z.to_nat n)%nat.
Proof.
  intros H. unfold slice_from. destruct (Z.leb_spec 0 n); [|lia].
  apply length_drop.
Qed.

(** One pass of the loop on a non-empty stack ends without an
    exception, shortens the stack, and builds a line that fits. *)
Lemma wrap_pass_spec width chunks lines :
  0 < width -> chunks <> [] ->
  exists chunks' cur_line,
    wrap_pass width chunks lines
    = Ok (chunks',
          if truthy cur_line then lines ++ [concat cur_line] else lines)
    /\ (budget_for chunks' < budget_for chunks)%nat
    /\ len (concat cur_line) <= width
    /\ (forallb solid (concat chunks) = true ->
        concat cur_line ++ concat chunks' = concat chunks).
Proof.
  intros Hw Hne. destruct chunks as [|c0 below0]; [congruence|]. clear Hne.
  unfold wrap_pass.
  set (chunks1 := if (blank c0 && truthy lines)%bool then below0
                  else c0 :: below0).
  assert (H1 : (chunks1 = c0 :: below0
                \/ (budget_for chunks1 < budget_for (c0 :: below0))%nat)
               /\ (forallb solid (concat (c0 :: below0)) = true ->
                   concat chunks1 = concat (c0 :: below0))).
  { subst chunks1. destruct (blank c0) eqn:Hb; simpl; [|auto].
    destruct (truthy lines); simpl; [|auto]. split.
    - right. rewrite budget_for_cons. lia.
    - rewrite forallb_app. intros [Hc _]%andb_true_iff.
      now rewrite (blank_solid c0 Hc Hb). }
  destruct H1 as [Hbudget Hsame]. clearbody chunks1.
  remember (c0 :: below0) as chunks0 eqn:Hchunks0.
  destruct (fill_line_spec width chunks1 [] 0)
    as (moved & rest & Heq & Hsplit & Hle & Hstuck).
  rewrite Heq. cbn [app]. rewrite Z.add_0_l in *.
  specialize (Hle ltac:(lia)).
  pose proof (len_nonneg (concat moved)) as Hmoved.
  destruct (head_is (fun chunk => width <? len chunk) rest) eqn:Hlong.
  - destruct rest as [|chunk below]; [discriminate|]. simpl in Hlong.
    apply Z.ltb_lt in Hlong.
    destruct (handle_long_word_spec chunk below moved
                (len (concat moved)) width Hw ltac:(lia))
      as (stop & Hhandle & Hstop & Hfirst).
    rewrite Hhandle. simpl.
    exists (slice_from chunk stop :: below),
           (drop_last_blank (moved ++ [slice_to chunk stop])).
    destruct (drop_last_blank_spec (moved ++ [slice_to chunk stop]))
      as (dropped & Hdrop & Hblank).
    assert (Hcat : concat moved ++ slice_to chunk stop
                   = concat (drop_last_blank (moved ++ [slice_to chunk stop]))
                     ++ concat dropped).
    { rewrite <- concat_app, <- Hdrop, concat_app. simpl.
      now rewrite app_nil_r. }
    split; [reflexivity|]. split; [|split].
    + assert ((budget_for (slice_from chunk stop :: below)
               < budget_for chunks1)%nat); [|destruct Hbudget; [congruence|lia]].
      rewrite Hsplit, budget_for_app, !budget_for_cons.
      rewrite slice_from_length by lia.
      destruct moved as [|m moved'].
      * specialize (Hfirst eq_refl). unfold len in Hlong. lia.
      * rewrite budget_for_cons. lia.
    + apply (f_equal len) in Hcat. rewrite !len_app in Hcat.
      pose proof (slice_to_len chunk stop ltac:(lia)).
      pose proof (len_nonneg (concat dropped)). lia.
    + intros Hsolid.
      set (cur := drop_last_blank (moved ++ [slice_to chunk stop])) in *.
      assert (Hwhole : concat chunks0
                       = concat cur ++ concat dropped
                         ++ slice_from chunk stop ++ concat below).
      { rewrite <- (Hsame Hsolid), Hsplit, concat_app. cbn [concat].
        rewrite (app_assoc (concat cur)), <- Hcat, <- app_assoc. f_equal.
        now rewrite app_assoc, slice_to_from. }
      assert (Hd : concat dropped = []).
      { apply concat_blank_solid; [assumption|].
        rewrite Hwhole, !forallb_app in Hsolid.
        now destruct (forallb solid (concat dropped));
          rewrite ?andb_false_r, ?andb_false_l in Hsolid. }
      rewrite Hwhole, Hd. reflexivity.
  - simpl.
    exists rest, (drop_last_blank moved).
    destruct (drop_last_blank_spec moved) as (dropped & Hdrop & Hblank).
    assert (Hcat : concat moved
                   = concat (drop_last_blank moved) ++ concat dropped).
    { now rewrite <- concat_app, <- Hdrop. }
    split; [reflexivity|]. split; [|split].
    + destruct moved as [|m moved'].
      * specialize (Hstuck eq_refl). simpl in Hsplit. subst rest.
        destruct Hbudget as [->|Hlt]; [|exact Hlt].
        subst chunks0. simpl in Hstuck, Hlong. exfalso.
        apply Z.leb_gt in Hstuck. apply Z.ltb_ge in Hlong. lia.
      * assert ((budget_for rest < budget_for chunks1)%nat);
          [|destruct Hbudget; [congruence|lia]].
        rewrite Hsplit, budget_for_app, budget_for_cons. lia.
    + apply (f_equal len) in Hcat. rewrite len_app in Hcat.
      pose proof (len_nonneg (concat dropped)). lia.
    + intros Hsolid. rewrite <- (Hsame Hsolid), Hsplit, concat_app, Hcat.
      assert (Hd : concat dropped = []).
      { apply concat_blank_solid; [assumption|].
        rewrite <- (Hsame Hsolid), Hsplit, concat_app, Hcat in Hsolid.
        rewrite !forallb_app in Hsolid.
        now destruct (forallb solid (concat dropped));
          rewrite ?andb_false_r, ?andb_false_l in Hsolid. }
      now rewrite Hd, app_nil_r.
Qed.
End WrapLoop.

Section WrapTotal.
Import textwrap.

Lemma wrap_loop_budget width budget chunks lines :
  0 < width -> (budget_for chunks <= budget)%nat ->
  exists out,
    wrap_loop budget width chunks lines = Ok (lines ++ out)
    /\ Forall (fun l => len l <= width) out
    /\ (forallb solid (concat chunks) = true -> concat out = concat chunks).
Proof.
  intros Hw. revert chunks lines.
  induction budget as [|budget IH]; intros chunks lines Hb.
  - destruct chunks as [|c chunks]; [|rewrite budget_for_cons in Hb; lia].
    exists []. rewrite app_nil_r. simpl. auto.
  - destruct chunks as [|c chunks].
    { exists []. rewrite app_nil_r. simpl. auto. }
    destruct (wrap_pass_spec width (c :: chunks) lines Hw ltac:(discriminate))
      as (chunks' & cur_line & Hpass & Hless & Hfit & Hcat).
    cbn [wrap_loop]. rewrite Hpass. cbn [mbind result_bind].
    destruct (IH chunks' (if truthy cur_line then lines ++ [concat cur_line]
                          else lines) ltac:(lia))
      as (out & Hloop & Hout & Hcat').
    rewrite Hloop.
    exists ((if truthy cur_line then [concat cur_line] else []) ++ out).
    split; [|split].
    + destruct (truthy cur_line); [now rewrite <- app_assoc|reflexivity].
    + destruct (truthy cur_line); [constructor|]; assumption.
    + intros Hsolid. specialize (Hcat Hsolid).
      rewrite <- Hcat, forallb_app in Hsolid.
      apply andb_true_iff in Hsolid as [_ Hsolid].
      rewrite concat_app, (Hcat' Hsolid), <- Hcat. f_equal.
      destruct cur_line; simpl; [reflexivity|now rewrite app_nil_r].
Qed.

Lemma concat_emit cur chunks :
  concat (emit cur chunks) = rev cur ++ concat chunks.
Proof. destruct cur; reflexivity. Qed.

(** The chunks are the text cut in pieces. *)
Lemma wordsep_split_concat a behind cur s :
  concat (wordsep_split a behind cur s) = rev cur ++ s.
Proof.
  revert a behind cur. induction s as [|c s IH]; intros a behind cur.
  - cbn [wordsep_split]. now rewrite concat_emit.
  - cbn [wordsep_split]. destruct (ends_before a behind c s).
    + now rewrite concat_emit, IH.
    + assert (Hgo : concat (wordsep_split a (c :: behind) (c :: cur) s)
                    = rev cur ++ c :: s).
      { rewrite IH. simpl. now rewrite <- app_assoc. }
      destruct a; try exact Hgo.
      destruct (dash c && hyphen_behind behind && hyphen_ahead s)%bool;
        [|exact Hgo].
      rewrite concat_emit, IH. simpl. now rewrite <- app_assoc.
Qed.

Lemma solid_not_ws c : solid c = true -> ws c = false /\ chr_is 9 c = false.
Proof.
  destruct c as [[] [] [] [] [] [] [] []]; vm_compute; intros H;
    first [discriminate H|split; reflexivity].
Qed.


End WrapTotal.

(** ** textwrap: which words are cut

    The lines are made of whole chunks; only a chunk longer than the
    width is cut. *)

Section WrapCuts.
Import textwrap.






End WrapCuts.

(** A word of plain characters that stands between whitespace is a
    chunk of its own. *)

Section WordChunks.
Import textwrap.



















End WordChunks.

Lemma wrap_returns (text : str) (width : Z) :
  0 < width -> exists lines, textwrap.wrap text width = Ok lines.
Proof.
  intros Hw. unfold textwrap.wrap, textwrap._wrap_chunks.
  destruct (Z.leb_spec width 0) as [?|_]; [lia|].
  destruct (wrap_loop_budget width
              (textwrap.budget_for (textwrap._split_chunks text))
              (textwrap._split_chunks text) [] Hw (le_n _))
    as (out & Hloop & _).
  now exists out.
Qed.




Example wrap_keeps_plain_words :
  textwrap.wrap (py "one two  three four") 9
  = Ok [py "one two"; py "three"; py "four"].
Proof. vm_compute. reflexivity. Qed.

Example wrap_hyphenated :
  textwrap.wrap (py "state-of-the-art tooling") 7
  = Ok [py "state-"; py "of-the-"; py "art"; py "tooling"].
Proof. vm_compute. reflexivity. Qed.

Example wrap_empty : textwrap.wrap [] 38 = Ok [].
Proof. reflexivity. Qed.

Example wrap_bad_width :
  textwrap.wrap (py "abc") 0
  = Raise (ValueError "invalid width 0 (must be > 0)").
Proof. reflexivity. Qed.

(** ** The canvas *)

Section DrawFacts.
Context {F : Type} {PF : PyFloat F}.
Variable textlength : str -> F.

Lemma wrap_38 (s : str) : textwrap.wrap s 38 = Ok (wrapped_lines s).
Proof.
  destruct (wrap_returns s 38 ltac:(lia)) as (lines & H).
  unfold wrapped_lines. now rewrite H.
Qed.

Lemma image_eta (draw : Image F) :
  draw = mkImage (mode draw) (size draw) (color draw) (ops draw).
Proof. now destruct draw. Qed.

Lemma draw_arrow_ops (draw : Image F) start stop fill :
  draw_arrow draw start stop fill
  = mkImage (mode draw) (size draw) (color draw)
      (ops draw ++ arrow_ops start stop fill).
Proof.
  unfold arrow_ops, draw_arrow, put. simpl. now rewrite <- app_assoc.
Qed.

Lemma draw_lines_ops (draw : Image F) cx ty wrapped theme :
  draw_lines textlength draw cx ty wrapped theme
  = mkImage (mode draw) (size draw) (color draw)
      (ops draw ++ text_ops textlength cx ty wrapped theme).
Proof.
  unfold text_ops. revert draw ty.
  induction wrapped as [|line wrapped IH]; intros draw ty.
  - simpl. rewrite app_nil_r. apply image_eta.
  - cbn [draw_lines]. rewrite IH.
    rewrite (IH (put blank _)). unfold put. simpl.
    now rewrite <- app_assoc.
Qed.

Lemma rounded_rectangle_ok (draw : Image F) x0 y0 x1 y1 radius fill
    outline width :
  x0 <= x1 -> y0 <= y1 ->
  rounded_rectangle draw (x0, y0, x1, y1) radius fill outline width
  = Ok (put draw (RoundedRectangle (x0, y0, x1, y1) radius fill outline
                    width)).
Proof.
  intros Hx Hy. unfold rounded_rectangle.
  destruct (Z.ltb_spec x1 x0); [lia|].
  now destruct (Z.ltb_spec y1 y0); [lia|].
Qed.

Lemma draw_box_eq (draw : Image F) cx y w s theme :
  0 <= w ->
  draw_box textlength draw cx y w s theme
  = Ok (cx - w `div` 2, y, cx - w `div` 2 + w, y + box_height s,
        mkImage (mode draw) (size draw) (color draw)
          (ops draw ++ box_ops textlength cx y w s theme)).
Proof.
  intros Hw. unfold draw_box. rewrite wrap_38. cbn [mbind result_bind].
  rewrite rounded_rectangle_ok
    by (pose proof (len_nonneg (wrapped_lines s)); lia).
  cbn [mbind result_bind].
  rewrite draw_lines_ops. unfold box_ops, box_height, put. simpl.
  now rewrite <- app_assoc.
Qed.

Lemma draw_box_negative_width (draw : Image F) cx y w s theme :
  w < 0 ->
  draw_box textlength draw cx y w s theme
  = Raise (ValueError "x1 must be greater than or equal to x0").
Proof.
  intros Hw. unfold draw_box. rewrite wrap_38. cbn [mbind result_bind].
  unfold rounded_rectangle.
  now destruct (Z.ltb_spec (cx - w `div` 2 + w) (cx - w `div` 2)); [|lia].
Qed.
End DrawFacts.

Section RoadmapFacts.
Context {F : Type} {PF : PyFloat F}.
Variable textlength : str -> F.

Lemma text_ops_cons cx ty line wrapped theme :
  text_ops textlength cx ty (line :: wrapped) theme
  = Text (float_ (fsub (float cx) (ffloordiv (textlength line) (float 2))),
          int_ ty) line (theme_text theme)
    :: text_ops textlength cx (ty + 18) wrapped theme.
Proof.
  unfold text_ops at 1. cbn [draw_lines]. now rewrite draw_lines_ops.
Qed.

Lemma box_height_min s : 34 <= box_height s.
Proof. unfold box_height. pose proof (len_nonneg (wrapped_lines s)). lia. Qed.

Lemma stack_height_nonneg steps : 0 <= stack_height 35 steps.
Proof.
  induction steps as [|s steps IH]; simpl; [lia|].
  pose proof (box_height_min s). lia.
Qed.

(** The first loop of [draw_roadmap]. *)
Lemma height_loop steps h :
  for_each steps h (fun height s =>
    wrapped ← textwrap.wrap s 38;
    mret (height + (34 + len wrapped * 18 + 35)))
  = Ok (h + stack_height 35 steps).
Proof.
  revert h. induction steps as [|s steps IH]; intros h; simpl.
  - now rewrite Z.add_0_r.
  - rewrite wrap_38. simpl. rewrite IH. f_equal. unfold box_height. lia.
Qed.

(** The second loop: the cursor, the boxes and the canvas after
    it. *)
Lemma box_loop steps theme y boxes (draw : Image F) :
  for_each steps (y, boxes, draw) (fun '(y, boxes, draw) s =>
    '(box, draw) ← draw_box textlength draw 500 y 620 s theme;
    mret (snd box + 35, boxes ++ [box], draw))
  = Ok (y + stack_height 35 steps,
        boxes ++ column 190 y 620 35 steps,
        mkImage (mode draw) (size draw) (color draw)
          (ops draw ++ column_ops textlength 500 y 620 35 steps theme)).
Proof.
  revert y boxes draw.
  induction steps as [|s steps IH]; intros y boxes draw.
  - simpl. rewrite Z.add_0_r, !app_nil_r. now rewrite <- image_eta.
  - cbn [for_each]. rewrite draw_box_eq by lia.
    cbn [mbind result_bind mret result_ret snd].
    rewrite IH. cbn [mode size color ops column column_ops].
    change (stack_height 35 (s :: steps))
      with (box_height s + 35 + stack_height 35 steps).
    change (500 - 620 `div` 2) with 190.
    rewrite <- !app_assoc. cbn [app].
    now rewrite <- !Z.add_assoc.
Qed.

Lemma index_lookup {A} (l : list A) (i : Z) (x : A) :
  0 <= i -> l !! Z.to_nat i = Some x -> index l i = Ok x.
Proof.
  intros Hi Hx. unfold index.
  destruct (Z.ltb_spec i 0) as [?|_]; [lia|].
  destruct (Z.ltb_spec i 0) as [?|_]; [lia|].
  now rewrite Hx.
Qed.

(** The third loop, from index [k] on. *)
Lemma arrow_loop boxes fill n k (draw : Image F) :
  n = (length boxes - 1 - k)%nat ->
  for_each (map Z.of_nat (seq k n)) draw (fun draw i =>
    '(l, t, r, b) ← index boxes i;
    '(l', t', r', b') ← index boxes (i + 1);
    let start := ((l + r) `div` 2, b + 6) in
    let stop := ((l' + r') `div` 2, t' - 6) in
    mret (draw_arrow draw start stop fill))
  = Ok (mkImage (mode draw) (size draw) (color draw)
          (ops draw ++ link_ops (drop k boxes) fill)).
Proof.
  revert k draw. induction n as [|n IH]; intros k draw Hn.
  - simpl. unfold link_ops.
    replace (links (drop k boxes)) with (@nil ((Z * Z) * (Z * Z))).
    + simpl. rewrite app_nil_r. now rewrite <- image_eta.
    + assert (Hlen : (length (drop k boxes) <= 1)%nat)
        by (rewrite length_drop; lia).
      destruct (drop k boxes) as [|? [|? ?]]; simpl in *; [easy|easy|lia].
  - assert (Hk : (S k < length boxes)%nat) by lia.
    destruct (lookup_lt_is_Some_2 boxes k ltac:(lia)) as [[[[l t] r] b] Hb].
    destruct (lookup_lt_is_Some_2 boxes (S k) Hk) as [[[[l' t'] r'] b'] Hb'].
    cbn [seq map for_each].
    rewrite (index_lookup boxes (Z.of_nat k) (l, t, r, b) ltac:(lia))
      by (rewrite Nat2Z.id; exact Hb).
    cbn [mbind result_bind].
    rewrite (index_lookup boxes (Z.of_nat k + 1) (l', t', r', b') ltac:(lia))
      by (replace (Z.to_nat (Z.of_nat k + 1)) with (S k) by lia; exact Hb').
    cbn [mbind result_bind mret result_ret]. rewrite draw_arrow_ops.
    rewrite (IH (S k)) by lia. cbn [mode size color ops].
    rewrite (drop_S boxes _ k Hb), (drop_S boxes _ (S k) Hb').
    unfold link_ops. cbn [links link flat_map fst snd].
    now rewrite <- app_assoc.
Qed.

Lemma THEMES_cases (theme_name : str) :
  THEMES !! theme_name
  = if decide (py "Purple" = theme_name)
    then Some (mkTheme "white" "#E1BEE7" "#6A1B9A" "black")
    else if decide (py "Blue" = theme_name)
    then Some (mkTheme "white" "#BBDEFB" "#1E88E5" "black")
    else if decide (py "Dark" = theme_name)
    then Some (mkTheme "#1E1E1E" "#2D2D2D" "#B0B0B0" "white")
    else None.
Proof. unfold THEMES. now rewrite !lookup_insert, lookup_empty. Qed.

(** [draw_roadmap] with a theme of the table: the image it saves
    and the path it returns. *)
Lemma draw_roadmap_eq steps theme_name theme fs :
  THEMES !! theme_name = Some theme ->
  draw_roadmap textlength steps theme_name fs
  = (Ok (py "/tmp/roadmap.png"),
     <[py "/tmp/roadmap.png" := roadmap_image textlength steps theme]> fs).
Proof.
  intros Htheme. unfold draw_roadmap, lift, getitem, save.
  rewrite Htheme. unfold mbind, IO_bind. cbn beta iota zeta.
  rewrite height_loop. cbn beta iota zeta.
  unfold Image_new. cbn [fst snd].
  pose proof (stack_height_nonneg steps) as Hs.
  destruct (Z.ltb_spec 1000 0) as [?|_]; [lia|].
  destruct (Z.ltb_spec (60 + 60 + stack_height 35 steps) 0) as [?|_]; [lia|].
  cbn [orb]. cbn beta iota zeta.
  rewrite box_loop. cbn beta iota zeta. cbn [app mode size color ops].
  unfold range.
  rewrite (arrow_loop (column 190 60 620 35 steps) _
             (Z.to_nat (len (column 190 60 620 35 steps) - 1)) 0)
    by (unfold len; lia).
  reflexivity.
Qed.

Lemma draw_roadmap_unknown_theme steps theme_name fs :
  THEMES !! theme_name = None ->
  draw_roadmap textlength steps theme_name fs
  = (Raise (KeyError theme_name), fs).
Proof.
  intros Htheme. unfold draw_roadmap, lift, getitem.
  rewrite Htheme. reflexivity.
Qed.
End RoadmapFacts.

(** ** Reading the canvas *)

Section ReadingFacts.
Context {F : Type} {PF : PyFloat F}.
Variable textlength : str -> F.

Lemma read_text_ops cx ty wrapped theme (rest : list (DrawOp F)) :
  boxes_of (text_ops textlength cx ty wrapped theme ++ rest) = boxes_of rest
  /\ segments_of (text_ops textlength cx ty wrapped theme ++ rest)
     = segments_of rest
  /\ polygons_of (text_ops textlength cx ty wrapped theme ++ rest)
     = polygons_of rest
  /\ tips_of (text_ops textlength cx ty wrapped theme ++ rest)
     = tips_of rest
  /\ labels_of (text_ops textlength cx ty wrapped theme ++ rest)
     = labels_of rest
  /\ texts_at (text_ops textlength cx ty wrapped theme ++ rest)
     = wrapped ++ texts_at rest.
Proof.
  revert ty. induction wrapped as [|line wrapped IH]; intros ty.
  - unfold text_ops. simpl. repeat split.
  - rewrite text_ops_cons.
    destruct (IH (ty + 18)) as (H1 & H2 & H3 & H4 & H5 & H6).
    cbn. now rewrite H6.
Qed.

Lemma read_arrow_ops start stop fill (rest : list (DrawOp F)) :
  boxes_of (arrow_ops start stop fill ++ rest) = boxes_of rest
  /\ segments_of (arrow_ops start stop fill ++ rest)
     = (start, stop) :: segments_of rest
  /\ length (polygons_of (arrow_ops start stop fill ++ rest))
     = S (length (polygons_of rest))
  /\ tips_of (arrow_ops start stop fill ++ rest)
     = (int_ (fst stop), int_ (snd stop)) :: tips_of rest
  /\ labels_of (arrow_ops start stop fill ++ rest) = labels_of rest
  /\ texts_at (arrow_ops start stop fill ++ rest) = [].
Proof. repeat split. Qed.

Lemma read_link_ops boxes fill :
  boxes_of (link_ops (F:=F) boxes fill) = []
  /\ segments_of (link_ops (F:=F) boxes fill) = links boxes
  /\ length (polygons_of (link_ops (F:=F) boxes fill))
     = length (links boxes)
  /\ tips_of (link_ops (F:=F) boxes fill)
     = map (fun a => (int_ (fst (snd a)), int_ (snd (snd a)))) (links boxes)
  /\ labels_of (link_ops (F:=F) boxes fill) = []
  /\ texts_at (link_ops (F:=F) boxes fill) = [].
Proof.
  unfold link_ops. induction (links boxes) as [|[start stop] l IH].
  - repeat split.
  - destruct IH as (H1 & H2 & H3 & H4 & H5 & H6).
    cbn [flat_map fst snd map].
    destruct (read_arrow_ops start stop fill
                (flat_map (fun a => arrow_ops (fst a) (snd a) fill) l))
      as (G1 & G2 & G3 & G4 & G5 & G6).
    rewrite G1, G2, G3, G4, G5, G6, H1, H2, H3, H4, H5.
    repeat split.
Qed.

Lemma read_rectangle xy radius fill outline width (rest : list (DrawOp F)) :
  let op := RoundedRectangle xy radius fill outline width in
  boxes_of (op :: rest) = xy :: boxes_of rest
  /\ segments_of (op :: rest) = segments_of rest
  /\ polygons_of (op :: rest) = polygons_of rest
  /\ tips_of (op :: rest) = tips_of rest
  /\ labels_of (op :: rest) = texts_at rest :: labels_of rest
  /\ texts_at (op :: rest) = [].
Proof. repeat split. Qed.

Lemma read_column_ops cx y w gap steps theme (rest : list (DrawOp F)) :
  texts_at rest = [] ->
  boxes_of (column_ops textlength cx y w gap steps theme ++ rest)
  = column (cx - w `div` 2) y w gap steps ++ boxes_of rest
  /\ segments_of (column_ops textlength cx y w gap steps theme ++ rest)
     = segments_of rest
  /\ polygons_of (column_ops textlength cx y w gap steps theme ++ rest)
     = polygons_of rest
  /\ tips_of (column_ops textlength cx y w gap steps theme ++ rest)
     = tips_of rest
  /\ labels_of (column_ops textlength cx y w gap steps theme ++ rest)
     = map wrapped_lines steps ++ labels_of rest
  /\ texts_at (column_ops textlength cx y w gap steps theme ++ rest) = [].
Proof.
  intros Hrest. revert y.
  induction steps as [|s steps IH]; intros y; [simpl; repeat split; auto|].
  destruct (IH (y + box_height s + gap)) as (H1 & H2 & H3 & H4 & H5 & H6).
  cbn [column_ops column map]. unfold box_ops.
  rewrite <- !app_assoc. cbn [app].
  destruct (read_text_ops cx (y + 12) (wrapped_lines s) theme
              (column_ops textlength cx (y + box_height s + gap) w gap
                 steps theme ++ rest))
    as (G1 & G2 & G3 & G4 & G5 & G6).
  match goal with
  | |- context [?op :: text_ops _ _ _ _ _ ++ ?tail] =>
      destruct (read_rectangle (cx - w `div` 2, y, cx - w `div` 2 + w,
                                y + box_height s) 20
                  (theme_box theme) (theme_line theme) 3
                  (text_ops textlength cx (y + 12) (wrapped_lines s) theme
                   ++ tail))
        as (R1 & R2 & R3 & R4 & R5 & R6)
  end.
  rewrite R1, R2, R3, R4, R5, R6.
  rewrite G1, G2, G3, G4, G5, G6, H1, H2, H3, H4, H5, H6, app_nil_r.
  repeat split.
Qed.
End ReadingFacts.

(** ** Columns of boxes and their links *)

Lemma column_length x y w gap steps :
  length (column x y w gap steps) = length steps.
Proof.
  revert y. induction steps as [|s steps IH]; intros y; simpl; [reflexivity|].
  now rewrite IH.
Qed.

Lemma column_lookup x y w gap steps i s :
  steps !! i = Some s ->
  column x y w gap steps !! i
  = Some (x, y + stack_height gap (take i steps), x + w,
          y + stack_height gap (take i steps) + box_height s).
Proof.
  revert y i. induction steps as [|s0 steps IH]; intros y i Hs; [easy|].
  destruct i as [|i]; simpl in *.
  - injection Hs as ->. now rewrite Z.add_0_r.
  - rewrite (IH _ _ Hs). now rewrite !Z.add_assoc.
Qed.

Lemma column_next x y w gap steps i l t r b l' t' r' b' :
  column x y w gap steps !! i = Some (l, t, r, b) ->
  column x y w gap steps !! S i = Some (l', t', r', b') ->
  t' = b + gap /\ l = x /\ l' = x /\ r = x + w /\ r' = x + w.
Proof.
  revert y i. induction steps as [|s steps IH]; intros y i Hi Hi'; [easy|].
  destruct i as [|i]; simpl in *.
  - injection Hi as <- <- <- <-. destruct steps as [|s' steps]; [easy|].
    simpl in Hi'. injection Hi' as <- <- <- <-. auto.
  - exact (IH _ _ Hi Hi').
Qed.

Lemma column_first x y w gap steps l t r b :
  column x y w gap steps !! O = Some (l, t, r, b) -> t = y.
Proof. destruct steps; [easy|]. simpl. now intros [= <- <- <- <-]. Qed.

(** No box ends below the cursor that the loop ends with, and the
    last one ends one gap above it. *)
Lemma column_bottoms x y w gap steps :
  0 <= gap ->
  (forall l t r b,
     In (l, t, r, b) (column x y w gap steps) ->
     y <= t /\ t + 34 <= b /\ b + gap <= y + stack_height gap steps)
  /\ (forall l t r b,
        last (column x y w gap steps) = Some (l, t, r, b) ->
        b + gap = y + stack_height gap steps).
Proof.
  intros Hgap. revert y. induction steps as [|s steps IH]; intros y.
  - simpl. split; [tauto|discriminate].
  - destruct (IH (y + box_height s + gap)) as [Hin Hlast].
    pose proof (box_height_min s) as Hs.
    assert (Hrest : 0 <= stack_height gap steps).
    { clear -Hgap. induction steps as [|s' steps IH']; simpl; [lia|].
      pose proof (box_height_min s'). lia. }
    cbn [column stack_height fold_right]. fold (stack_height gap steps).
    split.
    + intros l t r b [[= <- <- <- <-]|H]; [lia|].
      specialize (Hin _ _ _ _ H). lia.
    + intros l t r b. destruct steps as [|s' steps].
      * simpl. intros [= <- <- <- <-]. lia.
      * intros H. change (last (column x (y + box_height s + gap) w gap
                                 (s' :: steps)) = Some (l, t, r, b)) in H.
        specialize (Hlast _ _ _ _ H). lia.
Qed.

Lemma links_length boxes : length (links boxes) = (length boxes - 1)%nat.
Proof.
  induction boxes as [|u [|v boxes] IH]; simpl in *; try reflexivity.
  rewrite IH. lia.
Qed.

Lemma links_lookup boxes i u v :
  boxes !! i = Some u -> boxes !! S i = Some v ->
  links boxes !! i = Some (link u v).
Proof.
  revert i. induction boxes as [|u0 boxes IH]; intros i Hu Hv; [easy|].
  destruct boxes as [|v0 boxes]; [easy|].
  destruct i as [|i].
  - simpl in *. now injection Hu as ->; injection Hv as ->.
  - exact (IH i Hu Hv).
Qed.

(** ** The roadmap *)

Section RoadmapClaims.
Context {F : Type} {PF : PyFloat F}.
Variable textlength : str -> F.

Lemma read_roadmap_image steps theme :
  let drawn := ops (roadmap_image textlength steps theme) in
  let boxes := column 190 60 620 35 steps in
  boxes_of drawn = boxes
  /\ segments_of drawn = links boxes
  /\ length (polygons_of drawn) = length (links boxes)
  /\ tips_of drawn
     = map (fun a => (int_ (fst (snd a)), int_ (snd (snd a)))) (links boxes)
  /\ labels_of drawn = map wrapped_lines steps.
Proof.
  cbn zeta. unfold roadmap_image. cbn [ops].
  destruct (read_link_ops (F:=F) (column 190 60 620 35 steps)
              (theme_line theme)) as (L1 & L2 & L3 & L4 & L5 & L6).
  destruct (read_column_ops textlength 500 60 620 35 steps theme
              (link_ops (column 190 60 620 35 steps) (theme_line theme)) L6)
    as (C1 & C2 & C3 & C4 & C5 & _).
  rewrite C1, C2, C3, C4, C5, L1, L2, L3, L4, L5, !app_nil_r.
  repeat split.
Qed.

(** C3.  For every list of [n] steps and every theme of the table,
    [draw_roadmap] saves an image on which exactly [n] rounded
    rectangles were drawn and exactly [max 0 (n - 1)] arrows, each
    arrow being one segment and one polygon. *)
Theorem box_and_arrow_counts steps theme_name theme fs :
  THEMES !! theme_name = Some theme ->
  exists img,
    draw_roadmap textlength steps theme_name fs
    = (Ok (py "/tmp/roadmap.png"), <[py "/tmp/roadmap.png" := img]> fs)
    /\ len (boxes_of (ops img)) = len steps
    /\ len (segments_of (ops img)) = Z.max 0 (len steps - 1)
    /\ len (polygons_of (ops img)) = Z.max 0 (len steps - 1).
Proof.
  intros Htheme. exists (roadmap_image textlength steps theme).
  split; [now apply draw_roadmap_eq|].
  destruct (read_roadmap_image steps theme) as (H1 & H2 & H3 & _).
  unfold len. rewrite H1, H2, H3, links_length, column_length. lia.
Qed.

(** C4.  For every list of steps and every theme of the table, the
    boxes of the saved image follow the steps in their order: box
    [i] is 620 wide around x = 500, as high as step [i] needs, and
    holds the wrapped lines of step [i]; the first box starts at
    y = 60 and each next box starts 35 below the bottom of the one
    before.  Arrow [i] is the segment from (500, bottom of box [i]
    + 6) to (500, top of box [i + 1] - 6), its head has its tip at
    that end, and there are no other arrows. *)
Theorem boxes_in_order_and_linked steps theme_name theme fs :
  THEMES !! theme_name = Some theme ->
  exists img,
    draw_roadmap textlength steps theme_name fs
    = (Ok (py "/tmp/roadmap.png"), <[py "/tmp/roadmap.png" := img]> fs)
    /\ let boxes := boxes_of (ops img) in
       let arrows := segments_of (ops img) in
       labels_of (ops img) = map wrapped_lines steps
       /\ length boxes = length steps
       /\ (forall i s,
             steps !! i = Some s ->
             exists t, boxes !! i = Some (190, t, 810, t + box_height s))
       /\ (forall l t r b, boxes !! O = Some (l, t, r, b) -> t = 60)
       /\ (forall i l t r b l' t' r' b',
             boxes !! i = Some (l, t, r, b) ->
             boxes !! S i = Some (l', t', r', b') ->
             t' = b + 35
             /\ (l + r) `div` 2 = 500 /\ (l' + r') `div` 2 = 500
             /\ arrows !! i = Some ((500, b + 6), (500, t' - 6))
             /\ tips_of (ops img) !! i = Some (int_ 500, int_ (t' - 6)))
       /\ length arrows = (length boxes - 1)%nat.
Proof.
  intros Htheme. exists (roadmap_image textlength steps theme).
  split; [now apply draw_roadmap_eq|].
  destruct (read_roadmap_image steps theme) as (H1 & H2 & _ & H4 & H5).
  cbn zeta. rewrite H1, H2, H4, H5.
  split; [reflexivity|]. split; [apply column_length|].
  split; [|split; [|split]].
  - intros i s Hs. eexists. now apply column_lookup.
  - intros l t r b. apply column_first.
  - intros i l t r b l' t' r' b' Hi Hi'.
    destruct (column_next _ _ _ _ _ _ _ _ _ _ _ _ _ _ Hi Hi')
      as (-> & -> & -> & -> & ->).
    pose proof (links_lookup _ _ _ _ Hi Hi') as Hlink.
    rewrite list_lookup_fmap, Hlink.
    repeat split; reflexivity.
  - apply links_length.
Qed.

(** C1, as the code has it.  For every list of steps and every
    theme of the table, the height of the canvas is the top margin
    (60) plus a bottom margin (60) plus the sum over the steps of
    box height plus gap (35), the box of a step being 34 plus 18
    for each of its wrapped lines at width 38.  Every box lies
    between the top margin and the bottom margin, so none is
    clipped, and the cursor after the last box (its bottom plus the
    gap) is 60 above the bottom of the canvas. *)
Theorem canvas_height steps theme_name theme fs :
  THEMES !! theme_name = Some theme ->
  exists img,
    draw_roadmap textlength steps theme_name fs
    = (Ok (py "/tmp/roadmap.png"), <[py "/tmp/roadmap.png" := img]> fs)
    /\ size img = (1000, 60 + 60 + stack_height 35 steps)
    /\ (forall l t r b,
          In (l, t, r, b) (boxes_of (ops img)) ->
          60 <= t /\ t < b /\ b + 35 + 60 <= snd (size img))
    /\ (forall l t r b,
          last (boxes_of (ops img)) = Some (l, t, r, b) ->
          b + 35 + 60 = snd (size img)).
Proof.
  intros Htheme. exists (roadmap_image textlength steps theme).
  split; [now apply draw_roadmap_eq|].
  destruct (read_roadmap_image steps theme) as (H1 & _).
  rewrite H1. cbn [roadmap_image size snd].
  destruct (column_bottoms 190 60 620 35 steps ltac:(lia)) as [Hin Hlast].
  split; [reflexivity|]. split.
  - intros l t r b H. specialize (Hin _ _ _ _ H). lia.
  - intros l t r b H. specialize (Hlast _ _ _ _ H). lia.
Qed.

(** C5.  For an empty list of steps and every theme of the table,
    [draw_roadmap] raises nothing: it saves an image 120 high, the
    two margins, with the background of the theme and nothing drawn
    on it, so no box and no arrow, and returns the path of the
    file. *)
Theorem empty_roadmap theme_name theme fs :
  THEMES !! theme_name = Some theme ->
  exists img,
    draw_roadmap textlength [] theme_name fs
    = (Ok (py "/tmp/roadmap.png"), <[py "/tmp/roadmap.png" := img]> fs)
    /\ img = mkImage "RGB" (1000, 60 + 60) (theme_bg theme) []
    /\ 0 < snd (size img)
    /\ boxes_of (ops img) = []
    /\ segments_of (ops img) = []
    /\ polygons_of (ops img) = [].
Proof.
  intros Htheme. exists (roadmap_image textlength [] theme).
  split; [now apply draw_roadmap_eq|].
  unfold roadmap_image. simpl. repeat split.
Qed.

(** C6, as the code has it.  For every canvas, centre, top, text and
    theme, and every width that is not negative, [draw_box] raises
    nothing; with [wrapped] the lines of the text at width 38, the
    height is 34 + 18 for each line, the rounded rectangle drawn goes
    from [(cx - w // 2, y)] to [(cx - w // 2 + w, y + height)] in the
    colours of the theme, it is the only rectangle the call draws,
    the lines of text drawn after it are [wrapped], and these bounds
    are the value returned. *)
Theorem draw_box_bounds (draw : Image F) cx y w text theme :
  0 <= w ->
  exists wrapped draw',
    textwrap.wrap text 38 = Ok wrapped
    /\ let h := 34 + 18 * len wrapped in
       let x := cx - w `div` 2 in
       draw_box textlength draw cx y w text theme
       = Ok (x, y, x + w, y + h, draw')
       /\ ops draw'
          = ops draw
            ++ RoundedRectangle (x, y, x + w, y + h) 20
                 (theme_box theme) (theme_line theme) 3
               :: text_ops textlength cx (y + 12) wrapped theme
       /\ boxes_of (ops draw')
          = boxes_of (ops draw) ++ [(x, y, x + w, y + h)]
       /\ texts_at (text_ops textlength cx (y + 12) wrapped theme)
          = wrapped.
Proof.
  intros Hw.
  exists (wrapped_lines text). eexists.
  split; [apply wrap_38|]. cbn zeta.
  replace (34 + 18 * len (wrapped_lines text)) with (box_height text)
    by (unfold box_height; lia).
  split; [now apply draw_box_eq|]. cbn [ops]. split; [reflexivity|].
  destruct (read_text_ops textlength cx (y + 12) (wrapped_lines text)
              theme []) as (T1 & _ & _ & _ & _ & T6).
  rewrite app_nil_r in T1, T6. split.
  - unfold boxes_of at 1. rewrite omap_app. cbn [omap list_omap].
    fold (boxes_of (F:=F)). unfold box_ops.
    change (omap _ (?op :: ?l)) with
      ((cx - w `div` 2, y, cx - w `div` 2 + w, y + box_height text)
         :: boxes_of l).
    now rewrite T1.
  - now rewrite T6, app_nil_r.
Qed.

(** C9.  For every theme key that is none of Purple, Blue and Dark,
    [draw_roadmap] raises the [KeyError] of the lookup, whatever
    the steps; no image is made and no file is written. *)
Theorem unknown_theme_fails_fast steps theme_name fs :
  theme_name <> py "Purple" ->
  theme_name <> py "Blue" ->
  theme_name <> py "Dark" ->
  draw_roadmap textlength steps theme_name fs
  = (Raise (KeyError theme_name), fs).
Proof.
  intros H1 H2 H3. apply draw_roadmap_unknown_theme.
  rewrite THEMES_cases. repeat case_decide; congruence.
Qed.
End RoadmapClaims.

(** ** The arrow that points straight down, over the real numbers *)

Section ArrowGeometry.
Import RealMath.
#[local] Open Scope R_scope.

Lemma atan2_up (y : R) : 0 < y -> atan2 y 0 = PI / 2.
Proof.
  intros Hy. unfold atan2.
  destruct (Rlt_dec 0 0) as [?|_]; [lra|].
  destruct (Rlt_dec 0 0) as [?|_]; [lra|].
  destruct (Rlt_dec 0 y); [reflexivity|lra].
Qed.

Lemma draw_arrow_real (draw : Image R) (sx sy ex ey : Z) (fill : string) :
  let a := atan2 (IZR (ey - sy)) (IZR (ex - sx)) in
  ops (draw_arrow draw (sx, sy) (ex, ey) fill)
  = ops draw
    ++ [ Line (sx, sy) (ex, ey) fill 3;
         Polygon
           [ (int_ ex, int_ ey);
             (float_ (IZR ex - 14 * cos a + 7 * sin a),
              float_ (IZR ey - 14 * sin a - 7 * cos a));
             (float_ (IZR ex - 14 * cos a - 7 * sin a),
              float_ (IZR ey - 14 * sin a + 7 * cos a)) ] fill ].
Proof.
  cbn zeta. unfold draw_arrow, put. cbn [ops fst snd].
  now rewrite <- app_assoc.
Qed.
End ArrowGeometry.

(** ** The properties at work

    The roadmap of three steps of the specification, drawn in the
    Purple theme with a font in which every line measures 0. *)

Lemma box_and_arrow_counts_witness :
  exists img : Image R,
    draw_roadmap (fun _ => 0%R)
      [py "Learn variables"; py "Learn loops"; py "Build a project"]
      (py "Purple") ∅
    = (Ok (py "/tmp/roadmap.png"), <[py "/tmp/roadmap.png" := img]> ∅)
    /\ len (boxes_of (ops img)) = 3
    /\ len (segments_of (ops img)) = 2
    /\ len (polygons_of (ops img)) = 2.
Proof.
  apply (box_and_arrow_counts (fun _ => 0%R)
           [py "Learn variables"; py "Learn loops"; py "Build a project"]
           (py "Purple") (mkTheme "white" "#E1BEE7" "#6A1B9A" "black") ∅).
  reflexivity.
Defined.

Lemma boxes_in_order_and_linked_witness :
  exists img : Image R,
    draw_roadmap (fun _ => 0%R)
      [py "Learn variables"; py "Learn loops"] (py "Dark") ∅
    = (Ok (py "/tmp/roadmap.png"), <[py "/tmp/roadmap.png" := img]> ∅)
    /\ labels_of (ops img) = [[py "Learn variables"]; [py "Learn loops"]]
    /\ length (boxes_of (ops img)) = 2%nat.
Proof.
  destruct (boxes_in_order_and_linked (fun _ => 0%R)
              [py "Learn variables"; py "Learn loops"]
              (py "Dark") (mkTheme "#1E1E1E" "#2D2D2D" "#B0B0B0" "white") ∅
              eq_refl) as (img & Hrun & Hlabels & Hlen & _).
  exists img. split; [exact Hrun|]. split; [exact Hlabels|exact Hlen].
Defined.

Lemma canvas_height_witness :
  exists img : Image R,
    draw_roadmap (fun _ => 0%R) [py "Learn loops"] (py "Blue") ∅
    = (Ok (py "/tmp/roadmap.png"), <[py "/tmp/roadmap.png" := img]> ∅)
    /\ size img = (1000, 207).
Proof.
  destruct (canvas_height (fun _ => 0%R) [py "Learn loops"]
              (py "Blue") (mkTheme "white" "#BBDEFB" "#1E88E5" "black") ∅
              eq_refl) as (img & Hrun & Hsize & _).
  exists img. split; [exact Hrun|exact Hsize].
Defined.

Lemma empty_roadmap_witness :
  exists img : Image R,
    draw_roadmap (fun _ => 0%R) [] (py "Purple") ∅
    = (Ok (py "/tmp/roadmap.png"), <[py "/tmp/roadmap.png" := img]> ∅)
    /\ img = mkImage "RGB" (1000, 120) "white" []
    /\ 0 < snd (size img)
    /\ boxes_of (ops img) = []
    /\ segments_of (ops img) = []
    /\ polygons_of (ops img) = [].
Proof.
  apply (empty_roadmap (fun _ => 0%R) (py "Purple")
           (mkTheme "white" "#E1BEE7" "#6A1B9A" "black") ∅).
  reflexivity.
Defined.

Lemma unknown_theme_fails_fast_witness :
  draw_roadmap (F:=R) (fun _ => 0%R) [py "Learn loops"] (py "Green") ∅
  = (Raise (KeyError (py "Green")), ∅).
Proof.
  apply (unknown_theme_fails_fast (fun _ => 0%R) [py "Learn loops"]
           (py "Green") ∅); discriminate.
Defined.

Lemma draw_box_bounds_witness :
  exists wrapped (draw' : Image R),
    textwrap.wrap (py "Learn loops") 38 = Ok wrapped
    /\ let h := 34 + 18 * len wrapped in
       let x := 500 - 620 `div` 2 in
       draw_box (fun _ => 0%R) blank 500 60 620 (py "Learn loops")
         (mkTheme "white" "#E1BEE7" "#6A1B9A" "black")
       = Ok (x, 60, x + 620, 60 + h, draw')
       /\ ops draw'
          = ops (blank (F:=R))
            ++ RoundedRectangle (x, 60, x + 620, 60 + h) 20
                 "#E1BEE7" "#6A1B9A" 3
               :: text_ops (fun _ => 0%R) 500 (60 + 12) wrapped
                    (mkTheme "white" "#E1BEE7" "#6A1B9A" "black")
       /\ boxes_of (ops draw')
          = boxes_of (ops (blank (F:=R))) ++ [(x, 60, x + 620, 60 + h)]
       /\ texts_at (text_ops (fun _ => 0%R) 500 (60 + 12) wrapped
                      (mkTheme "white" "#E1BEE7" "#6A1B9A" "black"))
          = wrapped.
Proof.
  apply (draw_box_bounds (fun _ => 0%R) blank 500 60 620 (py "Learn loops")
           (mkTheme "white" "#E1BEE7" "#6A1B9A" "black")).
  lia.
Defined.

(** C6, as stated, fails: with the width -2 the second corner of the
    rectangle lies to the left of the first, the call of
    [rounded_rectangle] raises, and [draw_box] returns no bounds. *)
Lemma draw_box_negative_width_raises :
  let theme := mkTheme "white" "#E1BEE7" "#6A1B9A" "black" in
  draw_box (fun _ => 0%R) (blank (F:=R)) 500 60 (-2) (py "Learn loops") theme
  = Raise (ValueError "x1 must be greater than or equal to x0")
  /\ ~ (exists bounds draw',
          draw_box (fun _ => 0%R) (blank (F:=R)) 500 60 (-2)
            (py "Learn loops") theme
          = Ok (bounds, draw')).
Proof.
  cbn zeta. rewrite draw_box_negative_width by lia.
  split; [reflexivity|]. intros (bounds & draw' & H). discriminate.
Qed.

(** C1, as stated, fails: for one step of one line the canvas is 207
    high, the top margin plus the box and the gap are 147. *)
Lemma canvas_height_counterexample :
  let steps := [py "Learn loops"] in
  let img : Image R :=
    roadmap_image (fun _ => 0%R) steps
      (mkTheme "white" "#E1BEE7" "#6A1B9A" "black") in
  draw_roadmap (fun _ => 0%R) steps (py "Purple") ∅
  = (Ok (py "/tmp/roadmap.png"), <[py "/tmp/roadmap.png" := img]> ∅)
  /\ snd (size img) = 207
  /\ snd (size img) <> 60 + stack_height 35 steps.
Proof.
  cbv zeta. split; [now apply draw_roadmap_eq|].
  cbn [roadmap_image size snd].
  assert (H : stack_height 35 [py "Learn loops"] = 87)
    by (vm_compute; reflexivity).
  rewrite H. split; [reflexivity|discriminate].
Qed.

Example three_steps_layout :
  let steps := [py "Learn variables"; py "Learn loops"; py "Build a project"] in
  column 190 60 620 35 steps
  = [(190, 60, 810, 112); (190, 147, 810, 199); (190, 234, 810, 286)]
  /\ links (column 190 60 620 35 steps)
     = [((500, 118), (500, 141)); ((500, 205), (500, 228))]
  /\ 60 + 60 + stack_height 35 steps = 381.
Proof. vm_compute. repeat split. Qed.

(** * Further properties of the code *)

(** ** Strings: strip, split and join *)

Lemma take_drop_while {A} (p : A -> bool) (l : list A) :
  l = take_while p l ++ drop_while p l.
Proof.
  induction l as [|x l IH]; simpl; [reflexivity|].
  destruct (p x); simpl; [now f_equal|reflexivity].
Qed.

Lemma drop_while_nil {A} (p : A -> bool) (l : list A) :
  drop_while p l = [] <-> forallb p l = true.
Proof.
  induction l as [|x l IH]; simpl; [tauto|].
  destruct (p x); simpl; [exact IH|]. split; discriminate.
Qed.

Lemma drop_while_head {A} (p : A -> bool) (l : list A) :
  drop_while p l = [] \/ textwrap.head_is (fun x => negb (p x)) (drop_while p l) = true.
Proof.
  induction l as [|x l IH]; simpl; [now left|].
  destruct (p x) eqn:Hx; [exact IH|]. right. simpl. now rewrite Hx.
Qed.

Lemma drop_while_fix {A} (p : A -> bool) (l : list A) :
  textwrap.head_is (fun x => negb (p x)) l = true -> drop_while p l = l.
Proof.
  destruct l as [|x l]; simpl; [discriminate|].
  now intros ->%negb_true_iff.
Qed.

Lemma head_is_rev_suffix {A} (q : A -> bool) (l k : list A) :
  k <> [] -> textwrap.head_is q (rev (l ++ k)) = textwrap.head_is q (rev k).
Proof.
  intros Hk. rewrite rev_app_distr.
  destruct (rev k) as [|y r] eqn:Hr; [|reflexivity].
  apply (f_equal (@rev A)) in Hr. rewrite rev_involutive in Hr.
  now subst k.
Qed.

(** What [strip] returns is empty or starts and ends with a
    character that is no whitespace. *)
Lemma str_strip_ends (s : str) :
  str_strip s = []
  \/ (textwrap.head_is solid (str_strip s) = true
      /\ textwrap.head_is solid (rev (str_strip s)) = true).
Proof.
  unfold str_strip. set (d := drop_while isspace s).
  destruct (drop_while_head isspace (rev d)) as [He|He].
  { left. now rewrite He. }
  right. rewrite rev_involutive. split; [|exact He].
  set (e := drop_while isspace (rev d)) in *.
  assert (Hne : e <> []) by (intros Habs; rewrite Habs in He; discriminate).
  pose proof (take_drop_while isspace (rev d)) as Hsplit. fold e in Hsplit.
  assert (Hd : d = rev (take_while isspace (rev d) ++ e)).
  { now rewrite <- Hsplit, rev_involutive. }
  assert (Hdne : d <> []).
  { intros Habs. apply Hne. unfold e. now rewrite Habs. }
  rewrite <- (head_is_rev_suffix solid (take_while isspace (rev d)) e Hne).
  rewrite <- Hd.
  destruct (drop_while_head isspace s) as [Hnil|Hhead]; [contradiction|].
  exact Hhead.
Qed.

Lemma str_strip_fix (s : str) :
  s = [] \/ (textwrap.head_is solid s = true
             /\ textwrap.head_is solid (rev s) = true) ->
  str_strip s = s.
Proof.
  intros [->|[Hhead Hlast]]; [reflexivity|]. unfold str_strip.
  rewrite (drop_while_fix isspace s Hhead).
  rewrite (drop_while_fix isspace (rev s) Hlast). apply rev_involutive.
Qed.

Lemma str_strip_idempotent (s : str) : str_strip (str_strip s) = str_strip s.
Proof. apply str_strip_fix, str_strip_ends. Qed.

Lemma drop_while_In {A} (p : A -> bool) (l : list A) (x : A) :
  In x (drop_while p l) -> In x l.
Proof.
  induction l as [|y l IH]; simpl; [tauto|].
  destruct (p y); simpl; tauto.
Qed.

Lemma str_strip_In (s : str) (c : ascii) : In c (str_strip s) -> In c s.
Proof.
  unfold str_strip. intros H. apply in_rev in H.
  apply drop_while_In in H. apply in_rev in H.
  now apply drop_while_In in H.
Qed.

Lemma str_strip_nil (s : str) :
  str_strip s = [] <-> forallb isspace s = true.
Proof.
  unfold str_strip. split.
  - intros H. apply (f_equal (@rev ascii)) in H. rewrite rev_involutive in H.
    simpl in H. apply drop_while_nil in H.
    destruct (drop_while_head isspace s) as [Hnil|Hhead].
    + now apply drop_while_nil.
    + exfalso. destruct (drop_while isspace s) as [|x d]; [discriminate|].
      simpl in Hhead. apply negb_true_iff in Hhead.
      rewrite forallb_forall in H. specialize (H x).
      rewrite <- in_rev in H. rewrite H in Hhead by now left. discriminate.
  - intros H. apply drop_while_nil in H. now rewrite H.
Qed.

Lemma str_split_nonempty (sep : ascii) (s : str) : str_split sep s <> [].
Proof.
  destruct s as [|c s]; simpl; [discriminate|].
  destruct (Ascii.eqb c sep); [discriminate|].
  destruct (str_split sep s); discriminate.
Qed.

Lemma str_split_free (sep : ascii) (s : str) :
  Forall (fun piece => ~ In sep piece) (str_split sep s).
Proof.
  induction s as [|c s IH]; simpl; [constructor; auto|].
  destruct (Ascii.eqb_spec c sep) as [->|Hne].
  - constructor; auto.
  - destruct (str_split sep s) as [|piece pieces]; [constructor; auto; simpl; tauto|].
    inversion IH as [|? ? Hp Hps]; subst. constructor; [|assumption].
    simpl. tauto.
Qed.

Lemma str_split_join (sep : ascii) (pieces : list str) :
  pieces <> [] ->
  Forall (fun piece => ~ In sep piece) pieces ->
  str_split sep (str_join [sep] pieces) = pieces.
Proof.
  assert (Hpiece : forall piece rest,
            ~ In sep piece ->
            str_split sep (piece ++ sep :: rest)
            = piece :: str_split sep rest).
  { induction piece as [|c piece IHp]; intros rest Hfree; simpl.
    - now rewrite Ascii.eqb_refl.
    - destruct (Ascii.eqb_spec c sep) as [->|Hne];
        [exfalso; apply Hfree; now left|].
      rewrite IHp by (intros H; apply Hfree; now right). reflexivity. }
  assert (Hlast : forall piece,
            ~ In sep piece -> str_split sep piece = [piece]).
  { induction piece as [|c piece IHp]; intros Hfree; [reflexivity|]. simpl.
    destruct (Ascii.eqb_spec c sep) as [->|Hne];
      [exfalso; apply Hfree; now left|].
    rewrite IHp by (intros H; apply Hfree; now right). reflexivity. }
  induction pieces as [|piece pieces IH]; intros Hne Hfree; [congruence|].
  inversion Hfree as [|? ? Hp Hps]; subst.
  destruct pieces as [|piece' pieces].
  - simpl. now apply Hlast.
  - change (str_join [sep] (piece :: piece' :: pieces))
      with (piece ++ sep :: str_join [sep] (piece' :: pieces)).
    rewrite Hpiece by assumption. f_equal. now apply IH.
Qed.

(** X5.  [split] undoes [join], and [join] undoes [split]: the
    pieces of a string split at a separator, joined with it, are the
    string; a non-empty list of strings that do not contain the
    separator, joined with it and split, is the list. *)
Theorem split_join_round_trip (sep : ascii) :
  (forall s, str_join [sep] (str_split sep s) = s)
  /\ (forall pieces,
        pieces <> [] ->
        Forall (fun piece => ~ In sep piece) pieces ->
        str_split sep (str_join [sep] pieces) = pieces).
Proof.
  split; [|intros pieces Hne Hfree; now apply str_split_join].
  induction s as [|c s IH]; [reflexivity|]. simpl.
  pose proof (str_split_nonempty sep s) as Hs.
  destruct (Ascii.eqb_spec c sep) as [->|Hne].
  - destruct (str_split sep s) as [|piece pieces] eqn:E; [congruence|].
    change (str_join [sep] ([] :: piece :: pieces))
      with ([sep] ++ str_join [sep] (piece :: pieces)).
    now rewrite IH.
  - destruct (str_split sep s) as [|piece pieces] eqn:E; [congruence|].
    rewrite <- IH. destruct pieces; reflexivity.
Qed.

Lemma split_join_round_trip_witness :
  str_split nl (str_join [nl] [py "Learn loops"; py "Build a project"])
  = [py "Learn loops"; py "Build a project"].
Proof.
  apply (proj2 (split_join_round_trip nl)
           [py "Learn loops"; py "Build a project"]).
  - discriminate.
  - repeat constructor; vm_compute; intuition discriminate.
Defined.

(** ** The number of steps and the steps generated *)

Lemma decimal_nonneg (digits : str) :
  forallb re_digit digits = true -> 0 <= decimal digits.
Proof.
  induction digits as [|c digits IH]; simpl; [lia|].
  intros [Hc Hd]%andb_true_iff. specialize (IH Hd).
  assert (0 <= digit_value c).
  { unfold re_digit, chr_in in Hc. apply andb_true_iff in Hc as [Hlo _].
    apply Nat.leb_le in Hlo. unfold digit_value. lia. }
  pose proof (len_nonneg digits).
  assert (0 < 10 ^ len digits) by (apply Z.pow_pos_nonneg; lia). nia.
Qed.

(** X1.  [parse_months] never returns a negative number: a sign in
    front of the digits is not part of the match. *)
Theorem parse_months_nonneg (duration : str) (months : Z) :
  parse_months duration = Ok months -> 0 <= months.
Proof.
  unfold parse_months.
  destruct (re_search_digits duration) as [m|] eqn:Hm.
  - apply re_search_digits_some in Hm as [Hne Hd].
    intros [-> _]%py_int_ok; [|assumption..].
    now apply decimal_nonneg.
  - intros [= <-]. lia.
Qed.

Lemma parse_months_nonneg_witness :
  parse_months (py "-5 months") = Ok 5 /\ 0 <= 5.
Proof.
  split; [reflexivity|].
  apply (parse_months_nonneg (py "-5 months") 5). reflexivity.
Defined.

(** X2.  For a level of the table, the number of steps is at least 3
    and at most the maximum of the level, whatever the number of
    months, and it does not decrease when the months increase. *)
Theorem compute_steps_bounds (level : str) (cap months : Z) :
  LEVEL_MAX_STEPS !! level = Some cap ->
  exists n,
    compute_steps months level = Ok n
    /\ 3 <= n <= cap
    /\ cap <= 14
    /\ (forall months' n',
          months <= months' ->
          compute_steps months' level = Ok n' -> n <= n').
Proof.
  intros Hcap. exists (Z.min (Z.max 3 (2 * months)) cap).
  split; [now apply compute_steps_eq|].
  assert (6 <= cap <= 14) by (apply LEVEL_MAX_STEPS_cases in Hcap; lia).
  split; [lia|]. split; [lia|].
  intros months' n' Hle. rewrite (compute_steps_eq months' level cap Hcap).
  intros [= <-]. lia.
Qed.

Lemma compute_steps_bounds_witness :
  exists n,
    compute_steps (-4) (py "Intermediate") = Ok n
    /\ 3 <= n <= 10
    /\ 10 <= 14
    /\ (forall months' n',
          -4 <= months' ->
          compute_steps months' (py "Intermediate") = Ok n' -> n <= n').
Proof. apply (compute_steps_bounds (py "Intermediate") 10 (-4)). reflexivity. Defined.

(** X3.  With a level that is not in the table, [generate_roadmap]
    returns no steps, whatever the random draw and the chat service:
    it raises what [parse_months] raises on the duration, if it
    does, and the [KeyError] of the level otherwise, so on every
    duration of at most 4300 characters; the lookup comes before the
    request. *)
Theorem generate_roadmap_unknown_level (draw : nat -> nat)
    (chat : str -> result str) (domain level duration : str) :
  LEVEL_MAX_STEPS !! level = None ->
  generate_roadmap draw chat domain level duration
  = match parse_months duration with
    | Ok _ => Raise (KeyError level)
    | Raise e => Raise e
    end
  /\ (len duration <= 4300 ->
      generate_roadmap draw chat domain level duration
      = Raise (KeyError level)).
Proof.
  intros Hlevel.
  assert (H : generate_roadmap draw chat domain level duration
              = match parse_months duration with
                | Ok _ => Raise (KeyError level)
                | Raise e => Raise e
                end).
  { unfold generate_roadmap.
    destruct (parse_months duration) as [months|e]; [|reflexivity]. simpl.
    now rewrite (compute_steps_unknown_level months level Hlevel). }
  split; [exact H|]. intros Hlen. rewrite H.
  now destruct (parse_months_returns duration Hlen) as [months ->].
Qed.

Lemma generate_roadmap_unknown_level_witness :
  generate_roadmap (fun _ => O) (fun _ => Ok (py "a")) (py "Chess")
    (py "Expert") (py "3 months")
  = Raise (KeyError (py "Expert")).
Proof.
  apply (generate_roadmap_unknown_level (fun _ => O) (fun _ => Ok (py "a"))).
  - reflexivity.
  - vm_compute. discriminate.
Defined.

Lemma generate_roadmap_steps (draw : nat -> nat) (chat : str -> result str)
    (domain level duration : str) (steps : list str) :
  generate_roadmap draw chat domain level duration = Ok steps ->
  exists months cap style content,
    parse_months duration = Ok months
    /\ LEVEL_MAX_STEPS !! level = Some cap
    /\ random_style draw = Ok style
    /\ chat (prompt_of domain level months style
               (Z.min (Z.max 3 (2 * months)) cap)) = Ok content
    /\ steps = slice_to (answer_lines content)
                 (Z.min (Z.max 3 (2 * months)) cap).
Proof.
  unfold generate_roadmap.
  destruct (parse_months duration) as [months|] eqn:Hm; [|discriminate]. simpl.
  destruct (LEVEL_MAX_STEPS !! level) as [cap|] eqn:Hcap;
    [|now rewrite (compute_steps_unknown_level months level Hcap)].
  rewrite (compute_steps_eq months level cap Hcap). simpl.
  destruct (random_style draw) as [style|] eqn:Hstyle; [|discriminate]. simpl.
  destruct (chat _) as [content|] eqn:Hchat; [|discriminate]. simpl.
  intros [= <-]. exists months, cap, style, content. repeat split; auto.
Qed.

Lemma slice_to_prefix {A} (l : list A) (n : Z) :
  exists rest, l = slice_to l n ++ rest.
Proof. exists (slice_from l n). symmetry. apply slice_to_from. Qed.

Lemma answer_lines_clean (content : str) :
  Forall (fun s => s <> [] /\ str_strip s = s /\ ~ In nl s)
    (answer_lines content).
Proof.
  unfold answer_lines. apply List.Forall_forall. intros s Hs.
  apply in_map_iff in Hs as (piece & <- & Hpiece).
  apply filter_In in Hpiece as [Hin Hkeep].
  split; [|split].
  - destruct (str_strip piece); [discriminate|discriminate].
  - apply str_strip_idempotent.
  - intros Hnl. apply str_strip_In in Hnl.
    pose proof (str_split_free nl content) as Hfree.
    rewrite List.Forall_forall in Hfree. exact (Hfree piece Hin Hnl).
Qed.

(** X4.  Every step that [generate_roadmap] returns is non-empty,
    has no whitespace at either end and contains no newline. *)
Theorem generate_roadmap_steps_clean (draw : nat -> nat)
    (chat : str -> result str) (domain level duration : str)
    (steps : list str) :
  generate_roadmap draw chat domain level duration = Ok steps ->
  Forall (fun s => s <> [] /\ str_strip s = s /\ ~ In nl s) steps.
Proof.
  intros Hrun.
  destruct (generate_roadmap_steps _ _ _ _ _ _ Hrun)
    as (months & cap & style & content & _ & _ & _ & _ & ->).
  destruct (slice_to_prefix (answer_lines content)
              (Z.min (Z.max 3 (2 * months)) cap)) as [rest Hrest].
  pose proof (answer_lines_clean content) as Hclean.
  rewrite Hrest in Hclean. now apply Forall_app in Hclean as [H _].
Qed.

Lemma generate_roadmap_steps_clean_witness :
  Forall (fun s => s <> [] /\ str_strip s = s /\ ~ In nl s)
    [py "Learn loops"; py "Build a project"].
Proof.
  apply (generate_roadmap_steps_clean (fun _ => O)
           (fun _ => Ok (py "  Learn loops" ++ [nl; space; nl]
                         ++ py "Build a project  " ++ [nl]))
           (py "Python") (py "Beginner") (py "1 month")).
  vm_compute. reflexivity.
Defined.

(** X6.  When the chat service answers, [generate_roadmap] returns
    the first non-blank lines of the answer in their order: all of
    them when there are at most [steps_count], and exactly
    [steps_count] otherwise. *)
Theorem generate_roadmap_count (draw : nat -> nat)
    (chat : str -> result str) (domain level duration : str)
    (steps : list str) :
  generate_roadmap draw chat domain level duration = Ok steps ->
  exists months steps_count style content rest,
    parse_months duration = Ok months
    /\ compute_steps months level = Ok steps_count
    /\ chat (prompt_of domain level months style steps_count) = Ok content
    /\ answer_lines content = steps ++ rest
    /\ len steps = Z.min steps_count (len (answer_lines content)).
Proof.
  intros Hrun.
  destruct (generate_roadmap_steps _ _ _ _ _ _ Hrun)
    as (months & cap & style & content & Hm & Hcap & _ & Hchat & ->).
  exists months, (Z.min (Z.max 3 (2 * months)) cap), style, content,
    (slice_from (answer_lines content) (Z.min (Z.max 3 (2 * months)) cap)).
  split; [exact Hm|]. split; [now apply compute_steps_eq|].
  split; [exact Hchat|]. split; [symmetry; apply slice_to_from|].
  assert (0 <= Z.min (Z.max 3 (2 * months)) cap)
    by (apply LEVEL_MAX_STEPS_cases in Hcap; lia).
  unfold slice_to, len. destruct (Z.leb_spec 0 (Z.min (Z.max 3 (2 * months)) cap)); [|lia].
  rewrite length_take. lia.
Qed.

Lemma generate_roadmap_count_witness :
  exists months steps_count style content rest,
    parse_months (py "1 month") = Ok months
    /\ compute_steps months (py "Beginner") = Ok steps_count
    /\ (fun _ : str => Ok (py "a" ++ nl :: py "b" ++ nl :: py "c"
                               ++ nl :: py "d"))
         (prompt_of (py "Go") (py "Beginner") months style steps_count)
       = Ok content
    /\ answer_lines content = [py "a"; py "b"; py "c"] ++ rest
    /\ len [py "a"; py "b"; py "c"]
       = Z.min steps_count (len (answer_lines content)).
Proof.
  apply (generate_roadmap_count (fun _ => O)
           (fun _ => Ok (py "a" ++ nl :: py "b" ++ nl :: py "c"
                         ++ nl :: py "d"))
           (py "Go") (py "Beginner") (py "1 month")).
  vm_compute. reflexivity.
Defined.

(** ** run *)

Section RunFacts.
Context {F : Type} {PF : PyFloat F}.
Variable textlength : str -> F.
Variable draw : nat -> nat.
Variable chat : str -> result str.

Lemma run_eq domain level duration theme_name theme steps (disk : Disk F) :
  generate_roadmap draw chat domain level duration = Ok steps ->
  THEMES !! theme_name = Some theme ->
  run textlength draw chat domain level duration theme_name disk
  = (Ok (str_join [nl] steps, py "/tmp/roadmap.png", py "/tmp/roadmap.txt"),
     mkDisk (<[py "/tmp/roadmap.png" := roadmap_image textlength steps theme]>
               (images disk))
            (<[py "/tmp/roadmap.txt" := str_join [nl] steps]> (texts disk))).
Proof.
  intros Hgen Htheme. unfold run. rewrite Hgen.
  now rewrite (draw_roadmap_eq textlength steps theme_name theme _ Htheme).
Qed.

(** X7.  When the chat service answers and the theme is in the
    table, [run] returns the steps joined by newlines and the two
    paths; the text file holds the text returned, the image file
    holds an image with one box for each step, labelled with the
    lines of that step, and every other file is as before.  When
    there is at least one step, the lines of the text are the
    steps. *)
Theorem run_writes_both domain level duration theme_name theme steps
    (disk : Disk F) :
  generate_roadmap draw chat domain level duration = Ok steps ->
  THEMES !! theme_name = Some theme ->
  exists joined img disk',
    run textlength draw chat domain level duration theme_name disk
    = (Ok (joined, py "/tmp/roadmap.png", py "/tmp/roadmap.txt"), disk')
    /\ texts disk' !! py "/tmp/roadmap.txt" = Some joined
    /\ images disk' !! py "/tmp/roadmap.png" = Some img
    /\ (steps <> [] -> str_split nl joined = steps)
    /\ len (boxes_of (ops img)) = len steps
    /\ labels_of (ops img) = map wrapped_lines steps
    /\ (forall path, path <> py "/tmp/roadmap.txt" ->
          texts disk' !! path = texts disk !! path)
    /\ (forall path, path <> py "/tmp/roadmap.png" ->
          images disk' !! path = images disk !! path).
Proof.
  intros Hgen Htheme.
  exists (str_join [nl] steps), (roadmap_image textlength steps theme).
  eexists.
  split; [exact (run_eq domain level duration theme_name theme steps disk
                   Hgen Htheme)|].
  cbn [texts images].
  destruct (read_roadmap_image textlength steps theme)
    as (Hboxes & _ & _ & _ & Hlabels).
  split; [apply lookup_insert_eq|]. split; [apply lookup_insert_eq|].
  split; [|split; [|split; [|split]]].
  - intros Hne. apply str_split_join; [exact Hne|].
    destruct (generate_roadmap_steps _ _ _ _ _ _ Hgen)
      as (months & cap & style & content & _ & _ & _ & _ & ->).
    destruct (slice_to_prefix (answer_lines content)
                (Z.min (Z.max 3 (2 * months)) cap)) as [rest Hrest].
    pose proof (answer_lines_clean content) as Hclean.
    rewrite Hrest in Hclean. apply Forall_app in Hclean as [Hclean _].
    eapply Forall_impl; [exact Hclean|]. cbn beta. tauto.
  - unfold len. now rewrite Hboxes, column_length.
  - exact Hlabels.
  - intros path Hpath. now apply lookup_insert_ne.
  - intros path Hpath. now apply lookup_insert_ne.
Qed.

(** X8.  [run] writes nothing unless both stages succeed: when the
    generation raises, [run] raises the same exception and leaves
    every file as it was; when the steps are generated but the theme
    is not in the table, [run] raises the [KeyError] of the theme,
    and neither the image nor the text file is written. *)
Theorem run_failure_writes_nothing domain level duration theme_name
    (disk : Disk F) :
  (forall e,
     generate_roadmap draw chat domain level duration = Raise e ->
     run textlength draw chat domain level duration theme_name disk
     = (Raise e, disk))
  /\ (forall steps,
        generate_roadmap draw chat domain level duration = Ok steps ->
        THEMES !! theme_name = None ->
        run textlength draw chat domain level duration theme_name disk
        = (Raise (KeyError theme_name), disk)).
Proof.
  split.
  - intros e Hgen. unfold run. now rewrite Hgen.
  - intros steps Hgen Htheme. unfold run. rewrite Hgen.
    rewrite (draw_roadmap_unknown_theme textlength steps theme_name _ Htheme).
    now destruct disk.
Qed.

(** X9.  [draw_roadmap] touches one file only: whether it succeeds
    or raises, every path other than the output path holds what it
    held; and a second rendering replaces the image of the first, so
    that the files after both are the files after the second
    alone. *)
Theorem draw_roadmap_one_file (steps : list str) (theme_name : str)
    (fs : gmap str (Image F)) :
  (forall path,
     path <> py "/tmp/roadmap.png" ->
     snd (draw_roadmap textlength steps theme_name fs) !! path = fs !! path)
  /\ (forall steps' theme_name',
        is_Some (THEMES !! theme_name') ->
        snd (draw_roadmap textlength steps' theme_name'
               (snd (draw_roadmap textlength steps theme_name fs)))
        = snd (draw_roadmap textlength steps' theme_name' fs)).
Proof.
  destruct (THEMES !! theme_name) as [theme|] eqn:Htheme.
  - rewrite (draw_roadmap_eq textlength steps theme_name theme fs Htheme).
    cbn [snd]. split.
    + intros path Hpath. now apply lookup_insert_ne.
    + intros steps' theme_name' [theme' Htheme'].
      rewrite !(draw_roadmap_eq textlength steps' theme_name' theme' _ Htheme').
      cbn [snd]. apply insert_insert_eq.
  - rewrite (draw_roadmap_unknown_theme textlength steps theme_name fs Htheme).
    cbn [snd]. split; reflexivity.
Qed.
End RunFacts.

Lemma run_writes_both_witness :
  exists joined (img : Image R) disk',
    run (fun _ => 0%R) (fun _ => O)
      (fun _ => Ok (py "Learn loops" ++ nl :: py "Build a project"))
      (py "Python") (py "Beginner") (py "1 month") (py "Dark")
      (mkDisk ∅ ∅)
    = (Ok (joined, py "/tmp/roadmap.png", py "/tmp/roadmap.txt"), disk')
    /\ texts disk' !! py "/tmp/roadmap.txt" = Some joined
    /\ images disk' !! py "/tmp/roadmap.png" = Some img
    /\ ([py "Learn loops"; py "Build a project"] <> [] ->
        str_split nl joined = [py "Learn loops"; py "Build a project"])
    /\ len (boxes_of (ops img)) = 2
    /\ labels_of (ops img)
       = map wrapped_lines [py "Learn loops"; py "Build a project"]
    /\ (forall path, path <> py "/tmp/roadmap.txt" ->
          texts disk' !! path = (∅ : gmap str str) !! path)
    /\ (forall path, path <> py "/tmp/roadmap.png" ->
          images disk' !! path = (∅ : gmap str (Image R)) !! path).
Proof.
  apply (run_writes_both (fun _ => 0%R) (fun _ => O)
           (fun _ => Ok (py "Learn loops" ++ nl :: py "Build a project"))
           (py "Python") (py "Beginner") (py "1 month") (py "Dark")
           (mkTheme "#1E1E1E" "#2D2D2D" "#B0B0B0" "white")
           [py "Learn loops"; py "Build a project"] (mkDisk ∅ ∅)).
  - vm_compute. reflexivity.
  - reflexivity.
Defined.

Lemma run_failure_writes_nothing_witness :
  run (F:=R) (fun _ => 0%R) (fun _ => O)
    (fun _ => Ok (py "Learn loops"))
    (py "Python") (py "Beginner") (py "1 month") (py "Green") (mkDisk ∅ ∅)
  = (Raise (KeyError (py "Green")), mkDisk ∅ ∅).
Proof.
  apply (proj2 (run_failure_writes_nothing (fun _ => 0%R) (fun _ => O)
                  (fun _ => Ok (py "Learn loops"))
                  (py "Python") (py "Beginner") (py "1 month") (py "Green")
                  (mkDisk ∅ ∅)) [py "Learn loops"]).
  - vm_compute. reflexivity.
  - reflexivity.
Defined.

Lemma draw_roadmap_one_file_witness :
  snd (draw_roadmap (F:=R) (fun _ => 0%R) [py "b"] (py "Blue")
         (snd (draw_roadmap (fun _ => 0%R) [py "a"] (py "Dark") ∅)))
  = snd (draw_roadmap (fun _ => 0%R) [py "b"] (py "Blue") ∅).
Proof.
  apply (proj2 (draw_roadmap_one_file (fun _ => 0%R) [py "a"] (py "Dark") ∅)
           [py "b"] (py "Blue")).
  eexists. reflexivity.
Defined.

(** ** Boxes, text rows and arrowheads *)

Lemma column_tops x y w gap steps i l t r b :
  0 <= gap ->
  column x y w gap steps !! i = Some (l, t, r, b) ->
  l = x /\ r = x + w /\ y <= t /\ t + 34 <= b.
Proof.
  intros Hgap. revert y i.
  induction steps as [|s steps IH]; intros y i Hi; [easy|].
  pose proof (box_height_min s) as Hs. destruct i as [|i]; simpl in Hi.
  - injection Hi as <- <- <- <-. lia.
  - destruct (IH _ _ Hi) as (? & ? & ? & ?). lia.
Qed.

Lemma column_apart x y w gap steps i j l t r b l' t' r' b' :
  0 <= gap -> (i < j)%nat ->
  column x y w gap steps !! i = Some (l, t, r, b) ->
  column x y w gap steps !! j = Some (l', t', r', b') ->
  b + gap <= t'.
Proof.
  intros Hgap. revert y i j.
  induction steps as [|s steps IH]; intros y i j Hij Hi Hj; [easy|].
  destruct j as [|j]; [lia|]. simpl in Hj. destruct i as [|i]; simpl in Hi.
  - injection Hi as <- <- <- <-.
    destruct (column_tops _ _ _ _ _ _ _ _ _ _ Hgap Hj) as (_ & _ & ? & _). lia.
  - apply (IH _ i j ltac:(lia) Hi Hj).
Qed.

Section LayoutFacts.
Context {F : Type} {PF : PyFloat F}.
Variable textlength : str -> F.

(** X10.  No two boxes of a roadmap overlap: all boxes span x = 190
    to x = 810, each is at least 34 high, and of two boxes the
    earlier one ends at least the gap of 35 above the top of the
    later one. *)
Theorem boxes_never_overlap steps theme_name theme fs :
  THEMES !! theme_name = Some theme ->
  exists img,
    draw_roadmap textlength steps theme_name fs
    = (Ok (py "/tmp/roadmap.png"), <[py "/tmp/roadmap.png" := img]> fs)
    /\ forall i j l t r b l' t' r' b',
         (i < j)%nat ->
         boxes_of (ops img) !! i = Some (l, t, r, b) ->
         boxes_of (ops img) !! j = Some (l', t', r', b') ->
         l = 190 /\ l' = 190 /\ r = 810 /\ r' = 810
         /\ t + 34 <= b /\ b + 35 <= t'.
Proof.
  intros Htheme. exists (roadmap_image textlength steps theme).
  split; [now apply draw_roadmap_eq|].
  destruct (read_roadmap_image textlength steps theme) as (-> & _).
  intros i j l t r b l' t' r' b' Hij Hi Hj.
  assert (Hgap : 0 <= 35) by lia.
  destruct (column_tops _ _ _ _ _ _ _ _ _ _ Hgap Hi) as (? & ? & _ & ?).
  destruct (column_tops _ _ _ _ _ _ _ _ _ _ Hgap Hj) as (? & ? & _ & _).
  pose proof (column_apart _ _ _ _ _ _ _ _ _ _ _ _ _ _ _ Hgap Hij Hi Hj).
  lia.
Qed.

Lemma text_rows_text_ops cx ty wrapped theme :
  length (text_rows (text_ops textlength cx ty wrapped theme))
  = length wrapped
  /\ forall i row,
       text_rows (text_ops textlength cx ty wrapped theme) !! i = Some row ->
       row = ty + 18 * Z.of_nat i.
Proof.
  revert ty. induction wrapped as [|line wrapped IH]; intros ty.
  - split; [reflexivity|]. intros i row. unfold text_ops. simpl. easy.
  - rewrite text_ops_cons. destruct (IH (ty + 18)) as [Hlen Hrows].
    change (text_rows (Text ?xy ?l ?f :: ?rest))
      with (ty :: text_rows rest).
    split; [simpl; now rewrite Hlen|].
    intros [|i] row; simpl.
    + intros [= <-]. lia.
    + intros Hrow. rewrite (Hrows i row Hrow). lia.
Qed.

Lemma text_ops_lookup cx ty wrapped theme (i : nat) :
  text_ops textlength cx ty wrapped theme !! i
  = (fun line =>
       Text (float_ (fsub (float cx)
                       (ffloordiv (textlength line) (float 2))),
             int_ (ty + 18 * Z.of_nat i)) line (theme_text theme))
    <$> wrapped !! i.
Proof.
  revert ty i. induction wrapped as [|line wrapped IH]; intros ty i.
  - unfold text_ops. simpl. now rewrite !lookup_nil.
  - rewrite text_ops_cons. destruct i as [|i].
    + simpl. now rewrite Z.add_0_r.
    + cbn [lookup list_lookup]. rewrite IH.
      destruct (wrapped !! i); cbn [fmap option_fmap option_map];
        [|reflexivity].
      replace (ty + 18 + 18 * Z.of_nat i) with (ty + 18 * Z.of_nat (S i))
        by lia.
      reflexivity.
Qed.

Lemma text_ops_length cx ty wrapped theme :
  length (text_ops textlength cx ty wrapped theme) = length wrapped.
Proof.
  revert ty. induction wrapped as [|line wrapped IH]; intros ty.
  - reflexivity.
  - rewrite text_ops_cons. simpl. now rewrite IH.
Qed.

(** X11.  For a width that is not negative, [draw_box] draws on the
    canvas it is given the rectangle it returns and then the lines of
    the text, nothing else: one call for each wrapped line, in order,
    line [i] at the top of the box plus 12 plus 18 [i] and at the
    centre minus half its rendered length, in the text colour of the
    theme; so every row lies inside the rectangle, at least 12 below
    its top and 22 above its bottom. *)
Theorem draw_box_text_rows (draw : Image F) cx y w text theme :
  0 <= w ->
  exists l t r b draw' texts,
    draw_box textlength draw cx y w text theme = Ok (l, t, r, b, draw')
    /\ ops draw'
       = ops draw
         ++ RoundedRectangle (l, t, r, b) 20
              (theme_box theme) (theme_line theme) 3
            :: texts
    /\ length texts = length (wrapped_lines text)
    /\ texts_at texts = wrapped_lines text
    /\ text_rows (ops draw') = text_rows (ops draw) ++ text_rows texts
    /\ forall i line,
         wrapped_lines text !! i = Some line ->
         let row := t + 12 + 18 * Z.of_nat i in
         texts !! i
         = Some (Text (float_ (fsub (float cx)
                                 (ffloordiv (textlength line) (float 2))),
                       int_ row) line (theme_text theme))
         /\ text_rows texts !! i = Some row
         /\ t + 12 <= row /\ row + 18 + 22 <= b.
Proof.
  intros Hw.
  exists (cx - w `div` 2), y, (cx - w `div` 2 + w), (y + box_height text).
  eexists.
  exists (text_ops textlength cx (y + 12) (wrapped_lines text) theme).
  split; [now apply draw_box_eq|]. cbn [ops].
  destruct (text_rows_text_ops cx (y + 12) (wrapped_lines text) theme)
    as [Hlen Hrows].
  split; [reflexivity|]. split; [apply text_ops_length|]. split; [|split].
  - destruct (read_text_ops textlength cx (y + 12) (wrapped_lines text)
                theme []) as (_ & _ & _ & _ & _ & T6).
    now rewrite !app_nil_r in T6.
  - unfold text_rows at 1. rewrite omap_app. reflexivity.
  - intros i line Hline. cbn zeta.
    split; [now rewrite text_ops_lookup, Hline|].
    pose proof (lookup_lt_Some _ _ _ Hline) as Hi.
    split; [|unfold box_height, len; lia].
    destruct (lookup_lt_is_Some_2
                (text_rows (text_ops textlength cx (y + 12)
                              (wrapped_lines text) theme)) i)
      as [row Hrow]; [now rewrite Hlen|].
    rewrite Hrow. f_equal. rewrite (Hrows i row Hrow). lia.
Qed.
End LayoutFacts.

Lemma boxes_never_overlap_witness :
  exists img : Image R,
    draw_roadmap (fun _ => 0%R) [py "a"; py "b"; py "c"] (py "Purple") ∅
    = (Ok (py "/tmp/roadmap.png"), <[py "/tmp/roadmap.png" := img]> ∅)
    /\ forall i j l t r b l' t' r' b',
         (i < j)%nat ->
         boxes_of (ops img) !! i = Some (l, t, r, b) ->
         boxes_of (ops img) !! j = Some (l', t', r', b') ->
         l = 190 /\ l' = 190 /\ r = 810 /\ r' = 810
         /\ t + 34 <= b /\ b + 35 <= t'.
Proof.
  apply (boxes_never_overlap (fun _ => 0%R) [py "a"; py "b"; py "c"]
           (py "Purple") (mkTheme "white" "#E1BEE7" "#6A1B9A" "black") ∅).
  reflexivity.
Defined.

Section RoadmapArrows.
Import RealMath.
Variable textlength : str -> R.

Lemma vertical_arrow_ops (x sy ey : Z) (fill : string) :
  sy < ey ->
  arrow_ops (F:=R) (x, sy) (x, ey) fill
  = [ Line (x, sy) (x, ey) fill 3;
      Polygon [ (int_ x, int_ ey);
                (float_ (IZR x + 7)%R, float_ (IZR ey - 14)%R);
                (float_ (IZR x - 7)%R, float_ (IZR ey - 14)%R) ] fill ].
Proof.
  intros Hdown. unfold arrow_ops. rewrite draw_arrow_real. cbn zeta.
  rewrite Z.sub_diag, atan2_up by (apply IZR_lt; lia).
  rewrite cos_PI2, sin_PI2. cbn [ops blank app].
  do 5 f_equal; [f_equal; f_equal; lra|].
  do 2 f_equal; f_equal; lra.
Qed.

Lemma polygons_link_ops (boxes : list (Z * Z * Z * Z)) (fill : string) :
  Forall (fun a => fst (fst a) = fst (snd a) /\ snd (fst a) < snd (snd a))
    (links boxes) ->
  polygons_of (link_ops (F:=R) boxes fill)
  = map (fun a =>
           [ (int_ (fst (snd a)), int_ (snd (snd a)));
             (float_ (IZR (fst (snd a)) + 7)%R,
              float_ (IZR (snd (snd a)) - 14)%R);
             (float_ (IZR (fst (snd a)) - 7)%R,
              float_ (IZR (snd (snd a)) - 14)%R) ])
      (links boxes).
Proof.
  unfold link_ops. induction 1 as [|[[sx sy] [ex ey]] l [Hx Hy] _ IH];
    [reflexivity|].
  cbn [fst snd] in Hx, Hy. subst ex.
  cbn [flat_map map fst snd]. rewrite vertical_arrow_ops by assumption.
  cbn [app].
  change (polygons_of (Line ?p ?q ?c ?n :: Polygon ?xy ?f :: ?rest))
    with (xy :: polygons_of rest).
  now rewrite IH.
Qed.

Lemma links_column_vertical x y w gap steps :
  12 < gap ->
  Forall (fun a => fst (fst a) = fst (snd a) /\ snd (fst a) < snd (snd a))
    (links (column x y w gap steps)).
Proof.
  intros Hgap. revert y. induction steps as [|s steps IH]; intros y;
    [constructor|].
  destruct steps as [|s' steps]; [constructor|].
  specialize (IH (y + box_height s + gap)).
  cbn [column links] in *. constructor; [|exact IH].
  cbn [link fst snd]. pose proof (box_height_min s'). split; [reflexivity|lia].
Qed.

(** X12.  Over the real numbers, every arrowhead of a roadmap points
    down: the head of arrow [i] has its tip at (500, top of box
    [i + 1] - 6) and its two other corners 14 above the tip, at
    x = 507 and x = 493. *)
Theorem roadmap_arrowheads steps theme_name theme fs :
  THEMES !! theme_name = Some theme ->
  exists img : Image R,
    draw_roadmap textlength steps theme_name fs
    = (Ok (py "/tmp/roadmap.png"), <[py "/tmp/roadmap.png" := img]> fs)
    /\ forall i l t r b l' t' r' b',
         boxes_of (ops img) !! i = Some (l, t, r, b) ->
         boxes_of (ops img) !! S i = Some (l', t', r', b') ->
         polygons_of (ops img) !! i
         = Some [ (int_ 500, int_ (t' - 6));
                  (float_ 507%R, float_ (IZR (t' - 6) - 14)%R);
                  (float_ 493%R, float_ (IZR (t' - 6) - 14)%R) ].
Proof.
  intros Htheme. exists (roadmap_image textlength steps theme).
  split; [now apply draw_roadmap_eq|].
  destruct (read_roadmap_image textlength steps theme) as (-> & _).
  unfold roadmap_image. cbn [ops].
  destruct (read_link_ops (F:=R) (column 190 60 620 35 steps)
              (theme_line theme)) as (_ & _ & _ & _ & _ & L6).
  destruct (read_column_ops textlength 500 60 620 35 steps theme
              (link_ops (column 190 60 620 35 steps) (theme_line theme)) L6)
    as (_ & _ & -> & _).
  rewrite polygons_link_ops by (apply links_column_vertical; lia).
  intros i l t r b l' t' r' b' Hi Hi'.
  rewrite list_lookup_fmap, (links_lookup _ _ _ _ Hi Hi').
  destruct (column_next _ _ _ _ _ _ _ _ _ _ _ _ _ _ Hi Hi')
    as (-> & -> & -> & -> & ->).
  cbn [fmap option_fmap option_map link fst snd].
  change ((190 + (190 + 620)) `div` 2) with 500.
  do 5 f_equal; [f_equal; lra|]. do 2 f_equal. lra.
Qed.
End RoadmapArrows.

Lemma roadmap_arrowheads_witness :
  exists img : Image R,
    draw_roadmap (fun _ => 0%R) [py "a"; py "b"] (py "Purple") ∅
    = (Ok (py "/tmp/roadmap.png"), <[py "/tmp/roadmap.png" := img]> ∅)
    /\ forall i l t r b l' t' r' b',
         boxes_of (ops img) !! i = Some (l, t, r, b) ->
         boxes_of (ops img) !! S i = Some (l', t', r', b') ->
         polygons_of (ops img) !! i
         = Some [ (int_ 500, int_ (t' - 6));
                  (float_ 507%R, float_ (IZR (t' - 6) - 14)%R);
                  (float_ 493%R, float_ (IZR (t' - 6) - 14)%R) ].
Proof.
  apply (roadmap_arrowheads (fun _ => 0%R) [py "a"; py "b"]
           (py "Purple") (mkTheme "white" "#E1BEE7" "#6A1B9A" "black") ∅).
  reflexivity.
Defined.

(** ** textwrap: the chunks *)

Section ChunkFacts.
Import textwrap.

Lemma char_classes (c : ascii) :
  (ws c = true -> isspace c = true)
  /\ (chr_is 9 c = true -> ws c = true)
  /\ (dash c = true -> ws c = false)
  /\ (isspace c = true -> solid c = false)
  /\ ws space = true.
Proof.
  destruct c as [[] [] [] [] [] [] [] []]; vm_compute;
    repeat split; intros; congruence.
Qed.

Lemma forallb_rev {A} (p : A -> bool) (l : list A) :
  forallb p (rev l) = forallb p l.
Proof.
  induction l as [|x l IH]; [reflexivity|]. simpl.
  rewrite forallb_app, IH. simpl. rewrite andb_true_r. apply andb_comm.
Qed.

Lemma emit_pure cur chunks :
  (cur = [] \/ pure_chunk_prop cur) ->
  Forall pure_chunk_prop chunks ->
  Forall pure_chunk_prop (emit cur chunks).
Proof.
  intros Hcur Hchunks. destruct cur as [|c cur]; [exact Hchunks|].
  destruct Hcur as [?|[_ Hpure]]; [discriminate|]. simpl.
  constructor; [|exact Hchunks]. split.
  - destruct (rev cur); discriminate.
  - change (rev cur ++ [c]) with (rev (c :: cur)). now rewrite !forallb_rev.
Qed.

Lemma wordsep_split_pure a behind cur s :
  match a with
  | Between => cur = []
  | Whitespace => cur <> [] /\ forallb ws cur = true
  | _ => cur <> [] /\ forallb (fun c => negb (ws c)) cur = true
  end ->
  Forall pure_chunk_prop (wordsep_split a behind cur s).
Proof.
  revert a behind cur. induction s as [|c s IH]; intros a behind cur Hinv.
  - cbn [wordsep_split]. apply emit_pure; [|constructor].
    destruct a; [now left|right..]; destruct Hinv; split; auto.
  - cbn [wordsep_split].
    assert (Hcur : cur = [] \/ pure_chunk_prop cur).
    { destruct a; [now left|right..]; destruct Hinv; split; auto. }
    destruct (ends_before a behind c s) eqn:Hend.
    + apply emit_pure; [exact Hcur|]. apply IH. unfold start_alt.
      destruct (ws c) eqn:Hc.
      * split; [discriminate|]. simpl. now rewrite Hc.
      * destruct (head_is word_punct behind && em_dash_ahead (c :: s))%bool;
          (split; [discriminate|]; simpl; now rewrite Hc).
    + assert (Hgo : match a with
                    | Between => c :: cur = []
                    | Whitespace => c :: cur <> [] /\ forallb ws (c :: cur) = true
                    | _ => c :: cur <> []
                           /\ forallb (fun c => negb (ws c)) (c :: cur) = true
                    end).
      { destruct a; simpl in Hend; [discriminate|..];
          destruct Hinv as [_ Hall]; (split; [discriminate|]); simpl;
          rewrite Hall.
        - apply negb_false_iff in Hend. now rewrite Hend.
        - apply negb_false_iff in Hend.
          destruct (char_classes c) as (_ & _ & Hdash & _).
          now rewrite (Hdash Hend).
        - apply orb_false_iff in Hend as [Hend _]. now rewrite Hend. }
      destruct a; try (apply IH; exact Hgo).
      destruct (dash c && hyphen_behind behind && hyphen_ahead s)%bool;
        [|apply IH; exact Hgo].
      apply emit_pure; [right; destruct Hgo; split; auto|]. now apply IH.
Qed.

Lemma munge_spaces text :
  Forall (fun c => ws c = true -> c = space) (_munge_whitespace text).
Proof.
  unfold _munge_whitespace, translate_whitespace.
  apply List.Forall_forall. intros c Hc.
  apply in_map_iff in Hc as (c0 & <- & _).
  destruct (ws c0) eqn:Hc0; [reflexivity|]. intros Hws. congruence.
Qed.

(** X13.  The chunks that [_split_chunks] cuts a text into are, put
    end to end, the text with its whitespace normalised; no chunk is
    empty, and every chunk is either whitespace only or free of
    whitespace, as the wrapping loop expects.  The only whitespace
    left after the normalisation is the space. *)
Theorem split_chunks_partition (text : str) :
  concat (_split_chunks text) = _munge_whitespace text
  /\ Forall (fun chunk =>
               chunk <> []
               /\ (forallb ws chunk = true
                   \/ forallb (fun c => negb (ws c)) chunk = true))
       (_split_chunks text)
  /\ Forall (fun c => ws c = true -> c = space) (_munge_whitespace text).
Proof.
  split; [|split].
  - unfold _split_chunks, _split. now rewrite wordsep_split_concat.
  - unfold _split_chunks, _split.
    exact (wordsep_split_pure Between [] [] _ eq_refl).
  - apply munge_spaces.
Qed.

Lemma split_chunks_nonempty (text : str) :
  Forall (fun chunk => chunk <> []) (_split_chunks text).
Proof.
  unfold _split_chunks, _split.
  eapply Forall_impl; [exact (wordsep_split_pure Between [] [] _ eq_refl)|].
  now intros chunk [Hne _].
Qed.
End ChunkFacts.

Example split_chunks_docstring :
  textwrap._split_chunks (py "Look, goof-ball -- use the -b option!")
  = [ py "Look,"; py " "; py "goof-"; py "ball"; py " "; py "--"; py " ";
      py "use"; py " "; py "the"; py " "; py "-b"; py " "; py "option!" ].
Proof. vm_compute. reflexivity. Qed.

(** ** textwrap: what the lines keep *)

Section WrapKeeps.
Import textwrap.

Lemma blank_not_solid (chunk : str) :
  blank chunk = true -> List.filter solid chunk = [].
Proof.
  unfold blank. intros H. apply negb_true_iff in H.
  assert (Hs : str_strip chunk = []) by (destruct (str_strip chunk); easy).
  apply str_strip_nil in Hs. clear H.
  induction chunk as [|c chunk IH]; [reflexivity|]. simpl in *.
  apply andb_true_iff in Hs as [Hc Hs].
  destruct (char_classes c) as (_ & _ & _ & Hsolid & _).
  rewrite (Hsolid Hc). now apply IH.
Qed.

Lemma concat_blank_not_solid (l : list str) :
  Forall (fun c => blank c = true) l -> List.filter solid (concat l) = [].
Proof.
  induction 1 as [|c l Hc _ IH]; [reflexivity|]. simpl.
  now rewrite List.filter_app, (blank_not_solid c Hc), IH.
Qed.

Lemma blank_nil : blank [] = true.
Proof. reflexivity. Qed.

Lemma drop_last_blank_nonempty (cur_line : list str) :
  Forall (fun c => c <> []) (removelast cur_line) ->
  Forall (fun c => c <> []) (drop_last_blank cur_line).
Proof.
  unfold drop_last_blank. intros Hinit.
  destruct (last cur_line) as [c|] eqn:Hlast;
    [|apply last_None in Hlast; subst; constructor].
  apply last_Some in Hlast as [l' ->]. rewrite removelast_last in *.
  destruct (blank c) eqn:Hc; [exact Hinit|].
  apply Forall_app. split; [exact Hinit|]. constructor; [|constructor].
  intros ->. discriminate.
Qed.

Lemma add_line_keeps (lines cur_line : list str) :
  List.filter solid
    (concat (if truthy cur_line then lines ++ [concat cur_line] else lines))
  = List.filter solid (concat lines) ++ List.filter solid (concat cur_line).
Proof.
  destruct cur_line as [|c cur_line]; simpl; [now rewrite app_nil_r|].
  now rewrite concat_app, List.filter_app, concat_cons, concat_nil, app_nil_r.
Qed.

Lemma add_line_nonempty (lines cur_line : list str) :
  Forall (fun c => c <> []) cur_line ->
  Forall (fun l => l <> []) lines ->
  Forall (fun l => l <> [])
    (if truthy cur_line then lines ++ [concat cur_line] else lines).
Proof.
  intros Hcur Hlines. destruct cur_line as [|c cur_line]; [exact Hlines|].
  apply Forall_app. split; [exact Hlines|]. constructor; [|constructor].
  inversion Hcur; subst. simpl. now destruct c.
Qed.

(** One pass of the loop loses no character that is not whitespace,
    and makes no empty chunk and no empty line. *)
Lemma wrap_pass_keeps width chunks lines chunks' lines' :
  0 < width ->
  wrap_pass width chunks lines = Ok (chunks', lines') ->
  List.filter solid (concat lines') ++ List.filter solid (concat chunks')
  = List.filter solid (concat lines) ++ List.filter solid (concat chunks)
  /\ (Forall (fun c => c <> []) chunks ->
      Forall (fun l => l <> []) lines ->
      Forall (fun c => c <> []) chunks' /\ Forall (fun l => l <> []) lines').
Proof.
  intros Hw. unfold wrap_pass.
  set (chunks1 := match chunks with
                  | chunk :: below =>
                      if (blank chunk && truthy lines)%bool then below
                      else chunks
                  | [] => chunks
                  end).
  assert (H1 : List.filter solid (concat chunks1)
               = List.filter solid (concat chunks)
               /\ (Forall (fun c => c <> []) chunks ->
                   Forall (fun c => c <> []) chunks1)).
  { subst chunks1. destruct chunks as [|c0 below0]; [auto|].
    destruct (blank c0) eqn:Hb; simpl; [|auto].
    destruct (truthy lines); simpl; [|auto]. split.
    - now rewrite List.filter_app, (blank_not_solid c0 Hb).
    - now inversion 1. }
  destruct H1 as [Hsame Hne1]. clearbody chunks1.
  destruct (fill_line_spec width chunks1 [] 0)
    as (moved & rest & Heq & Hsplit & Hle & _).
  rewrite Heq. cbn [app]. rewrite Z.add_0_l in *.
  specialize (Hle ltac:(lia)).
  pose proof (len_nonneg (concat moved)) as Hmoved.
  assert (Hkeep : forall cur0 rest',
            List.filter solid (concat cur0)
            ++ List.filter solid (concat rest')
            = List.filter solid (concat chunks1) ->
            List.filter solid
              (concat (if truthy (drop_last_blank cur0)
                       then lines ++ [concat (drop_last_blank cur0)]
                       else lines))
            ++ List.filter solid (concat rest')
            = List.filter solid (concat lines)
              ++ List.filter solid (concat chunks)).
  { intros cur0 rest' Hcur. rewrite add_line_keeps, <- Hsame, <- Hcur.
    destruct (drop_last_blank_spec cur0) as (dropped & Hdrop & Hblank).
    rewrite Hdrop at 2. rewrite concat_app, List.filter_app.
    rewrite (concat_blank_not_solid dropped Hblank), app_nil_r.
    now rewrite <- app_assoc. }
  destruct (head_is (fun chunk => width <? len chunk) rest) eqn:Hlong.
  - destruct rest as [|chunk below]; [discriminate|]. simpl in Hlong.
    apply Z.ltb_lt in Hlong.
    destruct (handle_long_word_spec chunk below moved
                (len (concat moved)) width Hw ltac:(lia))
      as (stop & Hhandle & Hstop & _).
    rewrite Hhandle. cbn [mbind result_bind mret result_ret].
    intros [= <- <-]. split.
    + apply Hkeep. rewrite Hsplit, !concat_app. cbn [concat].
      rewrite app_nil_r, !List.filter_app, <- !app_assoc. f_equal.
      rewrite (app_assoc (List.filter solid (slice_to chunk stop))).
      now rewrite <- List.filter_app, slice_to_from.
    + intros Hne Hlines. specialize (Hne1 Hne). rewrite Hsplit in Hne1.
      apply Forall_app in Hne1 as [Hmv Hrest].
      inversion Hrest as [|? ? Hchunk Hbelow]; subst. split.
      * constructor; [|exact Hbelow]. intros Habs.
        apply (f_equal (@length ascii)) in Habs.
        rewrite slice_from_length in Habs by lia.
        unfold len in Hlong. simpl in Habs. lia.
      * apply add_line_nonempty; [|exact Hlines].
        apply drop_last_blank_nonempty. now rewrite removelast_last.
  - cbn [mbind result_bind mret result_ret]. intros [= <- <-]. split.
    + apply Hkeep. now rewrite Hsplit, concat_app, List.filter_app.
    + intros Hne Hlines. specialize (Hne1 Hne). rewrite Hsplit in Hne1.
      apply Forall_app in Hne1 as [Hmv Hrest]. split; [exact Hrest|].
      apply add_line_nonempty; [|exact Hlines].
      apply drop_last_blank_nonempty.
      destruct (last moved) as [c|] eqn:Hlast.
      * apply last_Some in Hlast as [l' ->]. rewrite removelast_last.
        now apply Forall_app in Hmv as [Hl' _].
      * apply last_None in Hlast. subst moved. constructor.
Qed.

Lemma wrap_loop_keeps width budget chunks lines out :
  0 < width ->
  wrap_loop budget width chunks lines = Ok out ->
  List.filter solid (concat out)
  = List.filter solid (concat lines) ++ List.filter solid (concat chunks)
  /\ (Forall (fun c => c <> []) chunks ->
      Forall (fun l => l <> []) lines ->
      Forall (fun l => l <> []) out).
Proof.
  intros Hw. revert chunks lines.
  induction budget as [|budget IH]; intros chunks lines;
    (destruct chunks as [|c chunks];
     [cbn [wrap_loop]; intros [= <-]; simpl; rewrite app_nil_r; auto|]).
  - discriminate.
  - cbn [wrap_loop].
    destruct (wrap_pass width (c :: chunks) lines) as [[chunks' lines']|e]
      eqn:Hpass; [|discriminate].
    cbn [mbind result_bind]. intros Hloop.
    destruct (wrap_pass_keeps _ _ _ _ _ Hw Hpass) as [Hkeep Hne].
    destruct (IH _ _ Hloop) as [Hkeep' Hne']. split.
    + now rewrite Hkeep', Hkeep.
    + intros Hchunks Hlines. destruct (Hne Hchunks Hlines). now apply Hne'.
Qed.

Lemma filter_solid_expand (col : nat) (text : str) :
  List.filter solid (translate_whitespace (expandtabs 8 col text))
  = List.filter solid text.
Proof.
  unfold translate_whitespace.
  revert col. induction text as [|c text IH]; intros col; [reflexivity|].
  destruct (char_classes c) as (Hws & Htab & _ & Hsolid & _).
  destruct (char_classes space) as (Hsp & _ & _ & Hsolid' & Hspace).
  cbn [expandtabs]. destruct (chr_is 9 c) eqn:Hc.
  - cbn [List.filter]. rewrite (Hsolid (Hws (Htab eq_refl))).
    cbn [Nat.ltb Nat.leb].
    rewrite map_app, List.filter_app, IH.
    replace (List.filter solid _) with (@nil ascii); [reflexivity|].
    induction (8 - col mod 8)%nat as [|n IHn]; [reflexivity|].
    cbn [repeat map List.filter]. rewrite Hspace.
    now rewrite (Hsolid' (Hsp Hspace)).
  - assert (Hstep : forall col',
              List.filter solid
                (map (fun c => if ws c then space else c)
                   (c :: expandtabs 8 col' text))
              = List.filter solid (c :: text)).
    { intros col'. cbn [map List.filter]. rewrite IH.
      destruct (ws c) eqn:Hwsc; [|reflexivity].
      now rewrite (Hsolid' (Hsp Hspace)), (Hsolid (Hws eq_refl)). }
    destruct (chr_is 10 c || chr_is 13 c)%bool; apply Hstep.
Qed.

Lemma filter_solid_munge (text : str) :
  List.filter solid (_munge_whitespace text) = List.filter solid text.
Proof. apply filter_solid_expand. Qed.
End WrapKeeps.

(** X14.  For every text and positive width, the lines of
    [textwrap.wrap] hold the characters of the text that are not
    whitespace, all of them, once each and in their order: wrapping
    drops, adds or replaces whitespace only. *)
Theorem wrap_keeps_text (text : str) (width : Z) :
  0 < width ->
  exists lines,
    textwrap.wrap text width = Ok lines
    /\ List.filter solid (concat lines) = List.filter solid text.
Proof.
  intros Hw. destruct (wrap_returns text width Hw) as [lines Hlines].
  exists lines. split; [exact Hlines|].
  unfold textwrap.wrap, textwrap._wrap_chunks in Hlines.
  destruct (Z.leb_spec width 0) as [?|_]; [lia|].
  destruct (wrap_loop_keeps _ _ _ _ _ Hw Hlines) as [Hkeep _].
  rewrite Hkeep. cbn [concat List.filter app].
  unfold textwrap._split_chunks, textwrap._split.
  rewrite wordsep_split_concat. cbn [rev app].
  apply filter_solid_munge.
Qed.

Lemma wrap_keeps_text_witness :
  exists lines,
    textwrap.wrap (py "  Build a  well-known project ") 9 = Ok lines
    /\ List.filter solid (concat lines) = py "Buildawell-knownproject".
Proof.
  apply (wrap_keeps_text (py "  Build a  well-known project ") 9). lia.
Defined.

(** X15.  For every text and positive width, no line of
    [textwrap.wrap] is empty: each line has at least one character
    and at most [width]. *)
Theorem wrap_lines_nonempty (text : str) (width : Z) :
  0 < width ->
  exists lines,
    textwrap.wrap text width = Ok lines
    /\ Forall (fun l => 1 <= len l <= width) lines.
Proof.
  intros Hw.
  assert (Hrun := wrap_returns text width Hw). destruct Hrun as [lines Hlines].
  exists lines. split; [exact Hlines|].
  unfold textwrap.wrap, textwrap._wrap_chunks in Hlines.
  destruct (Z.leb_spec width 0) as [?|_]; [lia|].
  destruct (wrap_loop_keeps _ _ _ _ _ Hw Hlines) as [_ Hne].
  specialize (Hne (split_chunks_nonempty text) (List.Forall_nil _)).
  destruct (wrap_loop_budget width
              (textwrap.budget_for (textwrap._split_chunks text))
              (textwrap._split_chunks text) [] Hw (le_n _))
    as (out & Hloop & Hfit & _).
  rewrite Hloop in Hlines. injection Hlines as <-. cbn [app] in *.
  apply List.Forall_forall. intros l Hl.
  rewrite List.Forall_forall in Hne, Hfit.
  specialize (Hne l Hl). specialize (Hfit l Hl).
  split; [|exact Hfit]. destruct l; [congruence|]. rewrite len_cons.
  pose proof (len_nonneg l). lia.
Qed.

Lemma wrap_lines_nonempty_witness :
  exists lines,
    textwrap.wrap (py "a  b") 1 = Ok lines
    /\ Forall (fun l => 1 <= len l <= 1) lines.
Proof. apply (wrap_lines_nonempty (py "a  b") 1). lia. Defined.

(** ** textwrap: short steps and blank steps *)

Section WrapShapes.
Import textwrap.

Lemma blank_iff (chunk : str) :
  blank chunk = true <-> forallb isspace chunk = true.
Proof.
  unfold blank. rewrite <- str_strip_nil.
  destruct (str_strip chunk); simpl; split; congruence.
Qed.

Lemma fill_line_all width chunks cur_line cur_len :
  cur_len + len (concat chunks) <= width ->
  fill_line width chunks cur_line cur_len
  = ([], cur_line ++ chunks, cur_len + len (concat chunks)).
Proof.
  revert cur_line cur_len.
  induction chunks as [|c chunks IH]; intros cur_line cur_len Hfit.
  - simpl. now rewrite app_nil_r, (@len_nil ascii), Z.add_0_r.
  - cbn [fill_line concat] in *. rewrite len_app in Hfit.
    pose proof (len_nonneg (concat chunks)).
    destruct (Z.leb_spec (cur_len + len c) width) as [_|?]; [|lia].
    rewrite IH by lia. now rewrite <- app_assoc, len_app, Z.add_assoc.
Qed.

Lemma clean_char (c : ascii) :
  (solid c || Ascii.eqb c space)%bool = true ->
  chr_is 9 c = false /\ (if ws c then space else c) = c.
Proof.
  intros [Hc|Hc]%orb_true_iff.
  - now destruct (solid_not_ws c Hc) as [-> ->].
  - apply Ascii.eqb_eq in Hc. now subst c.
Qed.

Lemma munge_clean (text : str) :
  forallb (fun c => solid c || Ascii.eqb c space)%bool text = true ->
  _munge_whitespace text = text.
Proof.
  intros Hclean. unfold _munge_whitespace.
  assert (Htabs : forall col, expandtabs 8 col text = text).
  { induction text as [|c text IH]; intros col; [reflexivity|].
    simpl in Hclean. apply andb_true_iff in Hclean as [Hc Hrest].
    cbn [expandtabs]. destruct (clean_char c Hc) as [-> _].
    destruct (chr_is 10 c || chr_is 13 c)%bool; f_equal; now apply IH. }
  rewrite Htabs. clear Htabs. unfold translate_whitespace.
  induction text as [|c text IH]; [reflexivity|].
  simpl in Hclean. apply andb_true_iff in Hclean as [Hc Hrest].
  cbn [map]. destruct (clean_char c Hc) as [_ ->]. f_equal. now apply IH.
Qed.
End WrapShapes.

Section WrapOneLine.
Import textwrap.

Lemma last_chunk_solid (chunks : list str) :
  Forall (fun chunk => chunk <> []) chunks ->
  head_is solid (rev (concat chunks)) = true ->
  drop_last_blank chunks = chunks /\ chunks <> [].
Proof.
  intros Hne Hlast. unfold drop_last_blank.
  destruct (last chunks) as [c|] eqn:Hc.
  - apply last_Some in Hc as [l' ->]. split; [|now destruct l'].
    apply Forall_app in Hne as [_ Hc]. inversion Hc as [|? ? Hcne _]; subst.
    rewrite concat_app in Hlast. cbn [concat] in Hlast.
    rewrite app_nil_r, head_is_rev_suffix in Hlast by assumption.
    destruct (blank c) eqn:Hb; [exfalso|reflexivity].
    apply blank_iff in Hb. rewrite <- forallb_rev in Hb.
    destruct (rev c) as [|x r]; [discriminate|]. simpl in Hb, Hlast.
    apply andb_true_iff in Hb as [Hx _].
    destruct (char_classes x) as (_ & _ & _ & Hsolid & _).
    rewrite (Hsolid Hx) in Hlast. discriminate.
  - apply last_None in Hc. subst chunks. discriminate.
Qed.

(** X16.  A text that is not empty, starts and ends with a character
    that is no whitespace, has no whitespace but plain spaces and is
    at most [width] long is wrapped into one line, the text itself;
    at the width of the boxes, such a step of at most 38 characters
    gets a box 52 high. *)
Theorem short_text_one_line (text : str) :
  text <> [] ->
  forallb (fun c => solid c || Ascii.eqb c space)%bool text = true ->
  head_is solid text = true ->
  head_is solid (rev text) = true ->
  (forall width, len text <= width -> wrap text width = Ok [text])
  /\ (len text <= 38 -> box_height text = 52).
Proof.
  intros Hne Hclean Hhead Hlast.
  assert (Hwrap : forall width, len text <= width -> wrap text width = Ok [text]).
  { intros width Hfit.
    assert (Hw : 0 < width).
    { destruct text; [congruence|]. rewrite len_cons in Hfit.
      pose proof (len_nonneg text). lia. }
    unfold wrap, _wrap_chunks.
    destruct (Z.leb_spec width 0) as [?|_]; [lia|].
    pose proof (split_chunks_nonempty text) as Hchunks.
    assert (Hcat : concat (_split_chunks text) = text).
    { unfold _split_chunks, _split.
      now rewrite wordsep_split_concat, munge_clean. }
    destruct (last_chunk_solid (_split_chunks text) Hchunks)
      as [Hkeep Hsome]; [now rewrite Hcat|].
    destruct (_split_chunks text) as [|c chunks] eqn:Hsplit; [congruence|].
    rewrite budget_for_cons. cbn [Nat.add wrap_loop]. unfold wrap_pass.
    rewrite andb_false_r.
    rewrite fill_line_all by (rewrite Hcat; lia).
    cbn [head_is app mbind result_bind mret result_ret].
    rewrite Hkeep. cbn [truthy app]. rewrite Hcat.
    now destruct (length c + budget_for chunks)%nat. }
  split; [exact Hwrap|].
  intros Hfit. unfold box_height, wrapped_lines. now rewrite (Hwrap 38 Hfit).
Qed.

Lemma short_text_one_line_witness :
  textwrap.wrap (py "Build a project") 38 = Ok [py "Build a project"]
  /\ box_height (py "Build a project") = 52.
Proof.
  destruct (short_text_one_line (py "Build a project")) as [Hwrap Hbox];
    try reflexivity; [discriminate|].
  split; [apply Hwrap|apply Hbox]; vm_compute; discriminate.
Defined.

Lemma forallb_slices {A} (p : A -> bool) (l : list A) (n : Z) :
  forallb p l = true ->
  forallb p (slice_to l n) = true /\ forallb p (slice_from l n) = true.
Proof.
  intros H. rewrite <- (slice_to_from l n), forallb_app in H.
  now apply andb_true_iff in H.
Qed.

(** A stack of one blank chunk stays one, and gives no line. *)
Lemma wrap_pass_blank width chunk chunks' lines' :
  0 < width ->
  forallb isspace chunk = true ->
  wrap_pass width [chunk] [] = Ok (chunks', lines') ->
  lines' = []
  /\ (chunks' = []
      \/ exists chunk', chunks' = [chunk'] /\ forallb isspace chunk' = true).
Proof.
  intros Hw Hblank. unfold wrap_pass. rewrite andb_false_r.
  cbn [fill_line]. rewrite Z.add_0_l.
  destruct (Z.leb_spec (len chunk) width) as [Hfit|Hlong].
  - cbn [fill_line head_is app mbind result_bind mret result_ret].
    unfold drop_last_blank. change (last [chunk]) with (Some chunk).
    cbv beta iota.
    rewrite (proj2 (blank_iff chunk) Hblank). cbn [removelast truthy].
    intros [= <- <-]. auto.
  - cbn [head_is]. destruct (Z.ltb_spec width (len chunk)) as [_|?]; [|lia].
    destruct (handle_long_word_spec chunk [] [] 0 width Hw ltac:(lia))
      as (stop & -> & _ & _).
    cbn [app mbind result_bind mret result_ret].
    destruct (forallb_slices isspace chunk stop Hblank) as [Hto Hfrom].
    unfold drop_last_blank. change (last [slice_to chunk stop])
      with (Some (slice_to chunk stop)).
    cbv beta iota.
    rewrite (proj2 (blank_iff _) Hto). cbn [removelast truthy].
    intros [= <- <-]. split; [reflexivity|]. right. eauto.
Qed.

Lemma wrap_loop_blank width budget chunks out :
  0 < width ->
  (chunks = []
   \/ exists chunk, chunks = [chunk] /\ forallb isspace chunk = true) ->
  wrap_loop budget width chunks [] = Ok out -> out = [].
Proof.
  intros Hw. revert chunks.
  induction budget as [|budget IH]; intros chunks [->|(chunk & -> & Hb)];
    cbn [wrap_loop]; try congruence.
  destruct (wrap_pass width [chunk] []) as [[chunks' lines']|e] eqn:Hpass;
    [|discriminate].
  cbn [mbind result_bind].
  destruct (wrap_pass_blank _ _ _ _ Hw Hb Hpass) as [-> Hshape].
  now apply IH.
Qed.

Lemma wordsep_split_spaces behind cur n :
  cur <> [] ->
  wordsep_split Whitespace behind cur (repeat space n)
  = [rev cur ++ repeat space n].
Proof.
  revert behind cur. induction n as [|n IH]; intros behind cur Hcur.
  - cbn [repeat wordsep_split]. rewrite app_nil_r. now destruct cur.
  - cbn [repeat wordsep_split ends_before].
    change (negb (ws space)) with false. cbn iota.
    rewrite IH by discriminate. cbn [rev]. now rewrite <- app_assoc.
Qed.

Lemma expand_blank (text : str) (col : nat) :
  forallb ws text = true ->
  exists n, translate_whitespace (expandtabs 8 col text) = repeat space n.
Proof.
  intros Hws. revert col.
  induction text as [|c text IH]; intros col; [now exists 0%nat|].
  simpl in Hws. apply andb_true_iff in Hws as [Hc Hrest].
  cbn [expandtabs]. destruct (chr_is 9 c).
  - cbn [Nat.ltb Nat.leb]. destruct (IH Hrest (col + (8 - col mod 8))%nat)
      as [n Hn].
    exists ((8 - col mod 8) + n)%nat. unfold translate_whitespace in *.
    rewrite map_app, Hn, repeat_app. f_equal.
    clear. induction (8 - col mod 8)%nat as [|k IHk]; [reflexivity|].
    cbn [repeat map]. change (ws space) with true. cbv iota.
    now rewrite IHk.
  - assert (Hstep : forall col',
              exists n, translate_whitespace (c :: expandtabs 8 col' text)
                        = repeat space n).
    { intros col'. destruct (IH Hrest col') as [n Hn]. exists (S n).
      unfold translate_whitespace in *. cbn [map repeat].
      now rewrite Hc, Hn. }
    destruct (chr_is 10 c || chr_is 13 c)%bool; apply Hstep.
Qed.

Lemma munge_blank (text : str) :
  forallb ws text = true ->
  exists n, _munge_whitespace text = repeat space n.
Proof. apply expand_blank. Qed.

(** X17.  A text of whitespace only (spaces, tabs, newlines and the
    like), the empty text included, is wrapped into no line at all,
    whatever the positive width; a step of that kind gets a box 34
    high with no text in it. *)
Theorem blank_text_no_line (text : str) :
  forallb ws text = true ->
  (forall width, 0 < width -> wrap text width = Ok [])
  /\ box_height text = 34.
Proof.
  intros Hws.
  assert (Hwrap : forall width, 0 < width -> wrap text width = Ok []).
  { intros width Hw. destruct (wrap_returns text width Hw) as [lines Hlines].
    rewrite Hlines. f_equal.
    unfold wrap, _wrap_chunks in Hlines.
    destruct (Z.leb_spec width 0) as [?|_]; [lia|].
    apply (wrap_loop_blank _ _ _ _ Hw) in Hlines; [exact Hlines|].
    unfold _split_chunks, _split. destruct (munge_blank text Hws) as [n ->].
    destruct n as [|n]; [now left|right].
    exists (repeat space (S n)). split.
    - cbn [repeat wordsep_split ends_before start_alt].
      change (ws space) with true. cbn iota. cbn [emit].
      now rewrite wordsep_split_spaces by discriminate.
    - clear. induction (S n) as [|k IH]; [reflexivity|]. simpl. exact IH. }
  split; [exact Hwrap|].
  unfold box_height, wrapped_lines. now rewrite (Hwrap 38 ltac:(lia)).
Qed.

Lemma blank_text_no_line_witness :
  textwrap.wrap (repeat space 50) 38 = Ok []
  /\ box_height (repeat space 50) = 34.
Proof.
  destruct (blank_text_no_line (repeat space 50)) as [Hwrap Hbox];
    [reflexivity|].
  split; [apply Hwrap; lia|exact Hbox].
Defined.
End WrapOneLine.

Lemma draw_box_text_rows_witness :
  exists l t r b (draw' : Image R) texts,
    draw_box (fun _ => 0%R) blank 500 60 620 (py "Learn loops")
      (mkTheme "white" "#E1BEE7" "#6A1B9A" "black")
    = Ok (l, t, r, b, draw')
    /\ ops draw'
       = ops (blank (F:=R))
         ++ RoundedRectangle (l, t, r, b) 20 "#E1BEE7" "#6A1B9A" 3 :: texts
    /\ length texts = length (wrapped_lines (py "Learn loops"))
    /\ texts_at texts = wrapped_lines (py "Learn loops")
    /\ text_rows (ops draw')
       = text_rows (ops (blank (F:=R))) ++ text_rows texts
    /\ forall i line,
         wrapped_lines (py "Learn loops") !! i = Some line ->
         let row := t + 12 + 18 * Z.of_nat i in
         texts !! i
         = Some (Text (float_ (fsub (float 500)
                                 (ffloordiv 0%R (float 2))),
                       int_ row) line "black")
         /\ text_rows texts !! i = Some row
         /\ t + 12 <= row /\ row + 18 + 22 <= b.
Proof.
  apply (draw_box_text_rows (fun _ => 0%R) blank 500 60 620
           (py "Learn loops") (mkTheme "white" "#E1BEE7" "#6A1B9A" "black")).
  lia.
Defined.

Lemma split_chunks_partition_witness :
  concat (textwrap._split_chunks (py "goof-ball  -- ok"))
  = py "goof-ball  -- ok"
  /\ Forall pure_chunk_prop (textwrap._split_chunks (py "goof-ball  -- ok")).
Proof.
  destruct (split_chunks_partition (py "goof-ball  -- ok")) as (H1 & H2 & _).
  split; [exact H1|exact H2].
Defined.
